(** * go-bitcoin: the [Amount] type, its parser and its formatter

    A shallow embedding of [Amount.go] (the revision whose [split],
    [SplitString] and [Format] take a unit of type [Amount], the one
    [Amount_test.go] exercises) and the properties of its specification.

    Conventions of the embedding.
    - [Amount] is Go's [int64]: a [Z] in [[-2^63, 2^63)], every arithmetic
      result passed through [wrap] (two's-complement wrap-around).
    - Go's [int] is taken to be 64 bits wide, as the test table of
      [TestSplit] requires ([92233720368] does not fit 32 bits), so the
      conversions [int(left)] and [int(right.Abs())] are the identity.
    - A Go [string] is a sequence of bytes: a Rocq [string], one [ascii]
      per byte.  [for pos, r := range in] decodes UTF-8 and yields the byte
      offset and the code point of each rune ([rangeString]).
    - A Go [(Amount, error)] result is a pair [Amount * option error], the
      [nil] error being [None]; a method on [*Amount] takes the receiver's
      value and returns the new one.
    - The method [String] is [String_] here, [String] being the
      constructor of Rocq's strings.
    - [float64] is IEEE binary64 on [spec_float] (module [F64]); the only
      float computation embedded is the pad width of [SplitString]. *)

From Stdlib Require Import ZArith List String Ascii Bool Lia Setoid Morphisms.
From Stdlib Require Import Floats.SpecFloat.
Import ListNotations.

Local Open Scope string_scope.
Local Open Scope Z_scope.

(** ** Machine integers *)

Module Int64.

Definition modulus : Z := 2 ^ 64.
Definition min_int : Z := - 2 ^ 63.
Definition max_int : Z := 2 ^ 63 - 1.

(** Two's-complement reduction of an ideal integer to [int64]. *)
Definition wrap (z : Z) : Z := (z + 2 ^ 63) mod modulus - 2 ^ 63.

Definition in_range (z : Z) : Prop := min_int <= z <= max_int.

Definition add (x y : Z) : Z := wrap (x + y).
Definition sub (x y : Z) : Z := wrap (x - y).
Definition mul (x y : Z) : Z := wrap (x * y).
Definition neg (x : Z) : Z := wrap (- x).
(** Go's [/] and [%] truncate toward zero; [min_int / -1] wraps. *)
Definition quo (x y : Z) : Z := wrap (Z.quot x y).
Definition rem (x y : Z) : Z := wrap (Z.rem x y).

End Int64.

(** ** The type and its unit constants *)

Definition Amount : Type := Z.

Definition Satoshi : Amount := 1.
Definition MicroBTC : Amount := 100 * Satoshi.
Definition MilliBTC : Amount := 1000 * MicroBTC.
Definition BTC : Amount := 1000 * MilliBTC.
Definition AllBTC : Amount := 20999999 * BTC + 97690000 * Satoshi.

(** [func (a Amount) Abs() Amount] *)
Definition Abs (a : Amount) : Amount :=
  if a <? 0 then Int64.neg a else a.

(** ** Strings, bytes and runes *)

Definition byte_of (c : ascii) : Z := Z.of_N (N_of_ascii c).
Definition ascii_of (b : Z) : ascii := ascii_of_N (Z.to_N b).

Definition bytes (s : string) : list Z := map byte_of (list_ascii_of_string s).

Definition RuneError : Z := 65533.

Definition is_cont (b : Z) : bool := (128 <=? b) && (b <=? 191).

(** The first rune of a byte sequence and its width in bytes, as
    [range] over a string decodes it: an ill-formed or truncated sequence
    yields [RuneError] and advances by one byte. *)
Definition decodeRune (bs : list Z) : Z * nat :=
  match bs with
  | [] => (RuneError, 0%nat)
  | b0 :: t =>
      if b0 <? 128 then (b0, 1%nat)
      else if (194 <=? b0) && (b0 <=? 223) then
        match t with
        | b1 :: _ =>
            if is_cont b1 then ((b0 - 192) * 64 + (b1 - 128), 2%nat)
            else (RuneError, 1%nat)
        | _ => (RuneError, 1%nat)
        end
      else if (224 <=? b0) && (b0 <=? 239) then
        let lo := if b0 =? 224 then 160 else 128 in
        let hi := if b0 =? 237 then 159 else 191 in
        match t with
        | b1 :: b2 :: _ =>
            if (lo <=? b1) && (b1 <=? hi) && is_cont b2
            then ((b0 - 224) * 4096 + (b1 - 128) * 64 + (b2 - 128), 3%nat)
            else (RuneError, 1%nat)
        | _ => (RuneError, 1%nat)
        end
      else if (240 <=? b0) && (b0 <=? 244) then
        let lo := if b0 =? 240 then 144 else 128 in
        let hi := if b0 =? 244 then 143 else 191 in
        match t with
        | b1 :: b2 :: b3 :: _ =>
            if (lo <=? b1) && (b1 <=? hi) && is_cont b2 && is_cont b3
            then ((b0 - 240) * 262144 + (b1 - 128) * 4096
                  + (b2 - 128) * 64 + (b3 - 128), 4%nat)
            else (RuneError, 1%nat)
        | _ => (RuneError, 1%nat)
        end
      else (RuneError, 1%nat)
  end.

(** [for pos, r := range s]: the (byte offset, rune) pairs in order.
    [skip] counts the bytes of the current rune still to be passed. *)
Fixpoint rangeFrom (pos : Z) (skip : nat) (bs : list Z) : list (Z * Z) :=
  match bs with
  | [] => []
  | _ :: t =>
      match skip with
      | S k => rangeFrom (pos + 1) k t
      | O =>
          let (r, size) := decodeRune bs in
          (pos, r) :: rangeFrom (pos + 1) (Nat.pred size) t
      end
  end.

Definition rangeString (s : string) : list (Z * Z) := rangeFrom 0 0 (bytes s).

(** [string(r)]: the UTF-8 encoding of a rune; a surrogate or an
    out-of-range value encodes as [RuneError]. *)
Definition encodeRune (r : Z) : string :=
  let r := if (r <? 0) || (1114111 <? r) || ((55296 <=? r) && (r <=? 57343))
           then RuneError else r in
  let ch (b : Z) (s : string) := String (ascii_of b) s in
  if r <? 128 then ch r EmptyString
  else if r <? 2048 then
    ch (192 + r / 64) (ch (128 + r mod 64) EmptyString)
  else if r <? 65536 then
    ch (224 + r / 4096)
      (ch (128 + (r / 64) mod 64) (ch (128 + r mod 64) EmptyString))
  else
    ch (240 + r / 262144)
      (ch (128 + (r / 4096) mod 64)
         (ch (128 + (r / 64) mod 64) (ch (128 + r mod 64) EmptyString))).

(** ** Parse *)

(** The four [errors.New] sites of [Parse]. *)
Inductive error : Type :=
| StrayPlus
| StrayMinus
| TooManyDecimalPoints
| UnknownCharacter (r : Z) (input : string).

(** The message each error carries. *)
Definition Error (e : error) : string :=
  match e with
  | StrayPlus => "parse error, stray +"
  | StrayMinus => "parse error, stray -"
  | TooManyDecimalPoints => "parse error, too many decimal points"
  | UnknownCharacter r input =>
      "parse error, unknown character: " ++ encodeRune r
        ++ " of '" ++ input ++ "'"
  end.

(** The variables [Parse] declares before its loop. *)
Record parseState : Type := mkState {
  value : Amount;
  decimals : bool;
  negative : bool;
  mul : Amount
}.

Definition initState : parseState :=
  mkState (Int64.mul 0 Satoshi) false false (Int64.mul 100 MilliBTC).

(** The closure [add]. *)
Definition add (st : parseState) (d : Amount) : parseState :=
  if negb (decimals st) then
    let d' := Int64.mul d BTC in
    let v' := Int64.mul (value st) 10 in
    mkState (Int64.add v' d') (decimals st) (negative st) (mul st)
  else
    let d' := Int64.mul d (mul st) in
    let m' := Int64.quo (mul st) 10 in
    mkState (Int64.add (value st) d') (decimals st) (negative st) m'.

(** The closure [runeVal]. *)
Definition runeVal (r : Z) : Amount := Int64.sub r 48.

Definition is_digit (r : Z) : bool := (48 <=? r) && (r <=? 57).

(** The loop of [Parse] over the runes still to be read. *)
Fixpoint scan (input : string) (rs : list (Z * Z)) (st : parseState)
  : Amount * option error :=
  match rs with
  | [] =>
      if negative st then (Int64.neg (value st), None)
      else (value st, None)
  | (pos, r) :: rest =>
      if r =? 43 then
        if pos =? 0 then scan input rest st
        else (0, Some StrayPlus)
      else if r =? 45 then
        if pos =? 0
        then scan input rest
               (mkState (value st) (decimals st) true (mul st))
        else (0, Some StrayMinus)
      else if is_digit r then scan input rest (add st (runeVal r))
      else if (r =? 46) || (r =? 44) then
        if decimals st then (0, Some TooManyDecimalPoints)
        else scan input rest
               (mkState (value st) true (negative st) (mul st))
      else (0, Some (UnknownCharacter r input))
  end.

(** [func Parse(in string) (Amount, error)] *)
Definition Parse (input : string) : Amount * option error :=
  scan input (rangeString input) initState.

(** ** The formatter *)

(** [func (a Amount) split(unit Amount) (int, int)] *)
Definition split (a unit : Amount) : Z * Z :=
  if a =? 0 then (0, 0)
  else if unit =? 0 then (0, -1)
  else
    let right := Int64.rem a unit in
    let left := Int64.quo (Int64.sub a right) unit in
    (left, Abs right).

Definition digit_char (d : Z) : ascii := ascii_of (48 + d).

(** The decimal digits of a non-negative integer, most significant
    first, prepended to [acc]; [fuel] bounds the number of digits. *)
Fixpoint utoa_aux (fuel : nat) (n : Z) (acc : string) : string :=
  match fuel with
  | O => acc
  | S f =>
      let acc' := String (digit_char (n mod 10)) acc in
      if n <? 10 then acc' else utoa_aux f (n / 10) acc'
  end.

Definition utoa (n : Z) : string :=
  utoa_aux (S (Z.to_nat (Z.log2 n))) n EmptyString.

Fixpoint zeros (n : nat) : string :=
  match n with
  | O => EmptyString
  | S k => String "0"%char (zeros k)
  end.

Definition len (s : string) : Z := Z.of_nat (String.length s).

(** [fmt.Sprintf("%0<width>d", n)]: the digits of [|n|] padded with zeros
    on the left up to [width] characters, the sign included in the count.
    With [width = 0] the format is ["%00d"], which prints as ["%d"]. *)
Definition sprintf_0d (width : Z) (n : Z) : string :=
  let ds := utoa (Z.abs n) in
  let prec := if n <? 0 then width - 1 else width in
  let padded := zeros (Z.to_nat (prec - len ds)) ++ ds in
  if n <? 0 then String "-"%char padded else padded.

(** [fmt.Sprintf("%d", n)] *)
Definition sprintf_d (n : Z) : string := sprintf_0d 0 n.

(** *** float64, for the pad width

    [SplitString] computes its pad width in floating point:
    [int(math.Log10(float64(unit)))].  [F64] is IEEE binary64 arithmetic
    (round to nearest, ties to even) on the Standard Library's
    [spec_float], with the two conversions and with [math.Log10] as Go's
    [math] package defines it: [Log10(x) = math.Log(x) * (1/Ln10)],
    [math.Log] being the algorithm of [log.go].  Constants are given by
    their bit patterns, high and low word, as the comments of [log.go]
    list them. *)

Module F64.

Definition prec : Z := 53.
Definition emax : Z := 1024.

Definition add (x y : spec_float) : spec_float := SFadd prec emax x y.
Definition sub (x y : spec_float) : spec_float := SFsub prec emax x y.
Definition mul (x y : spec_float) : spec_float := SFmul prec emax x y.
Definition div (x y : spec_float) : spec_float := SFdiv prec emax x y.

(** [float64(z)] for an integer [z]. *)
Definition of_int64 (z : Z) : spec_float :=
  binary_normalize prec emax z 0 false.

(** The binary64 value with the given high and low 32-bit words. *)
Definition of_bits (hi lo : Z) : spec_float :=
  let bits := hi * 2 ^ 32 + lo in
  let s := Z.testbit bits 63 in
  let e := (bits / 2 ^ 52) mod 2 ^ 11 in
  let m := bits mod 2 ^ 52 in
  if e =? 0 then
    match m with
    | Zpos p => S754_finite s p (-1074)
    | _ => S754_zero s
    end
  else if e =? 2047 then
    if m =? 0 then S754_infinity s else S754_nan
  else
    match m + 2 ^ 52 with
    | Zpos p => S754_finite s p (e - 1075)
    | _ => S754_nan
    end.

(** [int(f)]: truncation toward zero; for a NaN, an infinity or a value
    outside [int64] the result is the one of amd64, the least [int64]. *)
Definition to_int64 (f : spec_float) : Z :=
  match f with
  | S754_zero _ => 0
  | S754_finite s m e =>
      let mag := if 0 <=? e then Zpos m * 2 ^ e else Zpos m / 2 ^ (- e) in
      let v := if s then - mag else mag in
      if (Int64.min_int <=? v) && (v <=? Int64.max_int) then v
      else Int64.min_int
  | _ => Int64.min_int
  end.

Definition Ln2Hi : spec_float := of_bits 0x3fe62e42 0xfee00000.
Definition Ln2Lo : spec_float := of_bits 0x3dea39ef 0x35793c76.
Definition L1 : spec_float := of_bits 0x3FE55555 0x55555593.
Definition L2 : spec_float := of_bits 0x3FD99999 0x9997FA04.
Definition L3 : spec_float := of_bits 0x3FD24924 0x94229359.
Definition L4 : spec_float := of_bits 0x3FCC71C5 0x1D8E78AF.
Definition L5 : spec_float := of_bits 0x3FC74664 0x96CB03DE.
Definition L6 : spec_float := of_bits 0x3FC39A09 0xD078C69F.
Definition L7 : spec_float := of_bits 0x3FC2F112 0xDF3E5244.

(** The constants [Sqrt2/2], [0.5] and [1/Ln10], rounded to binary64. *)
Definition Sqrt2_2 : spec_float := of_bits 0x3FE6A09E 0x667F3BCD.
Definition half : spec_float := of_bits 0x3FE00000 0.
Definition inv_Ln10 : spec_float := of_bits 0x3FDBCB7B 0x1526E50E.

(** [math.Log] *)
Definition Log (x : spec_float) : spec_float :=
  match x with
  | S754_nan => x
  | S754_infinity false => x
  | _ =>
      if SFltb x (S754_zero false) then S754_nan
      else if SFeqb x (S754_zero false) then S754_infinity true
      else
        let (f1, ki) := SFfrexp prec emax x in
        let (f1, ki) :=
          if SFltb f1 Sqrt2_2 then (mul f1 (of_int64 2), ki - 1)
          else (f1, ki) in
        let f := sub f1 (of_int64 1) in
        let k := of_int64 ki in
        let s := div f (add (of_int64 2) f) in
        let s2 := mul s s in
        let s4 := mul s2 s2 in
        let t1 :=
          mul s2 (add L1 (mul s4 (add L3 (mul s4 (add L5 (mul s4 L7)))))) in
        let t2 := mul s4 (add L2 (mul s4 (add L4 (mul s4 L6)))) in
        let R := add t1 t2 in
        let hfsq := mul (mul half f) f in
        sub (mul k Ln2Hi)
          (sub (sub hfsq (add (mul s (add hfsq R)) (mul k Ln2Lo))) f)
  end.

(** [math.Log10] *)
Definition Log10 (x : spec_float) : spec_float := mul (Log x) inv_Ln10.

End F64.

(** [int(math.Log10(float64(unit)))].  At a power of ten [10^k] this is
    [k], except at [10^15], where the product falls one unit in the last
    place short of 15 and truncates to 14; at a unit that is zero or
    negative it is the least [int64]. *)
Definition log10 (unit : Amount) : Z :=
  F64.to_int64 (F64.Log10 (F64.of_int64 unit)).

(** The digits of the width in the format, as [fmt] reads them: a number
    that has grown beyond [1e6] before its last digit is refused. *)
Fixpoint parsenum (digits : string) (num : Z) : option Z :=
  match digits with
  | EmptyString => Some num
  | String c t =>
      if 1000000 <? num then None
      else parsenum t (num * 10 + (byte_of c - 48))
  end.

Fixpoint spaces (n : nat) : string :=
  match n with
  | O => EmptyString
  | S k => String " "%char (spaces k)
  end.

(** [fmt.Sprintf(fmt.Sprintf("%%0%dd", width), n)], the right string
    before stripping.  For [width >= 0] the format is ["%0<width>d"]; for
    a negative width it is ["%0-<|width|>d"], where the minus flag
    cancels the zero flag and [n] is printed left-justified in
    [|width|] columns; a width [fmt] refuses leaves a format without
    verb and an unused argument. *)
Definition sprintf_width (width : Z) (n : Z) : string :=
  match parsenum (utoa (Z.abs width)) 0 with
  | None => "%!(NOVERB)%!(EXTRA int=" ++ sprintf_d n ++ ")"
  | Some w =>
      if width <? 0 then
        let s := sprintf_d n in
        s ++ spaces (Z.to_nat (w - len s))
      else sprintf_0d w n
  end.

(** The loop of [SplitString]:
    [for i := len(rightStr) - 1; i > 0; i-- { ... }]. *)
Fixpoint stripLoop (i : nat) (rightStr : string) : string :=
  match i with
  | O => rightStr
  | S j =>
      match String.get i rightStr with
      | Some c =>
          if Ascii.eqb c "0" then stripLoop j (substring 0 i rightStr)
          else rightStr
      | None => rightStr
      end
  end.

(** [func (a Amount) SplitString(unit Amount) (string, string)] *)
Definition SplitString (a unit : Amount) : string * string :=
  let (left, right) := split a unit in
  let log10 := log10 unit in
  let leftStr := sprintf_d left in
  let rightStr := sprintf_width log10 right in
  (leftStr, stripLoop (Nat.pred (String.length rightStr)) rightStr).

(** [func (a Amount) Format(unit Amount) string] *)
Definition Format (a unit : Amount) : string :=
  let (left, right) := SplitString a unit in
  if String.eqb right "0" then left else left ++ "." ++ right.

(** [func (a Amount) String() string] *)
Definition String_ (a : Amount) : string :=
  if (Abs a >? BTC) || (a =? 0) then Format a BTC ++ " BTC"
  else if Abs a >? MilliBTC then Format a MilliBTC ++ " mBTC"
  else Format a Satoshi ++ " sats".

(** ** Marshal adapters *)

(** [func (a Amount) MarshalText() (text []byte, err error)] *)
Definition MarshalText (a : Amount) : string * option error :=
  let (left, right) := SplitString a BTC in
  (left ++ "." ++ right, None).

(** [func (a *Amount) UnmarshalText(text []byte) error]: the receiver's
    value before the call, the text; the receiver's value after it and the
    error returned. *)
Definition UnmarshalText (a : Amount) (text : string)
  : Amount * option error :=
  let (decoded, err) := Parse text in
  match err with
  | Some e => (a, Some e)
  | None => (decoded, None)
  end.

Definition quote : ascii := "034"%char.

(** The first statement of [UnmarshalJSON]:
    [if len(in) > 2 && in[len(in)-1] == '"' && in[0] == '"'
       { in = in[1 : len(in)-2] }]. *)
Definition jsonPayload (input : string) : string :=
  let n := String.length input in
  if (2 <? n)%nat
     && match String.get (n - 1) input with
        | Some c => Ascii.eqb c quote
        | None => false
        end
     && match String.get 0 input with
        | Some c => Ascii.eqb c quote
        | None => false
        end
  then substring 1 (n - 2 - 1) input
  else input.

Section JSON.

(** [encoding/json] and the float formatting of [fmt] are taken as they
    come: [jsonUnmarshalFloat] is [json.Unmarshal(in, &f)] ([None] when
    it returns an error) and [sprintf_08f] is [fmt.Sprintf("%.08f", f)]. *)
Variable float64 : Type.
Variable jsonUnmarshalFloat : string -> option float64.
Variable sprintf_08f : float64 -> string.

(** [func (a *Amount) UnmarshalJSON(in []byte) error] *)
Definition UnmarshalJSON (a : Amount) (input : string)
  : Amount * option error :=
  let input := jsonPayload input in
  let (a1, err) := UnmarshalText a input in
  match err with
  | Some e =>
      match jsonUnmarshalFloat input with
      | Some f =>
          let (asFloat, err2) := Parse (sprintf_08f f) in
          match err2 with
          | Some _ => (a1, Some e)
          | None => (asFloat, None)
          end
      | None => (a1, Some e)
      end
  | None => (a1, None)
  end.

End JSON.

(** * Vocabulary of the statements *)

Definition signB (b : Z) : bool := (b =? 43) || (b =? 45).
Definition pointB (b : Z) : bool := (b =? 46) || (b =? 44).
Definition allowedB (b : Z) : bool := signB b || pointB b || is_digit b.

(** A byte of [bs] that stops the scan: a sign away from offset 0, a
    decimal marker after an earlier one, or a byte outside the alphabet.
    [pos] is the offset of the head of [bs] in the input and [dec] tells
    whether a decimal marker came before it. *)
Definition Offending (pos : Z) (dec : bool) (bs : list Z) : Prop :=
  exists (i : nat) (b : Z),
    nth_error bs i = Some b
    /\ ((signB b = true /\ pos + Z.of_nat i <> 0)
        \/ (pointB b = true
            /\ (dec = true
                \/ exists (j : nat) (d : Z),
                    (j < i)%nat /\ nth_error bs j = Some d
                    /\ pointB d = true))
        \/ allowedB b = false).

Definition alphabet : list ascii := list_ascii_of_string "0123456789+-.,".

Definition is_sign (c : ascii) : Prop := c = "+"%char \/ c = "-"%char.
Definition is_point (c : ascii) : Prop := c = "."%char \/ c = ","%char.

(** [offending s]: some byte of [s] is a ['+'] or a ['-'] at an offset
    other than 0, or a ['.'] or [','] with another one before it, or lies
    outside the alphabet of digits, signs and decimal markers. *)
Definition offending (s : string) : Prop :=
  exists (i : nat) (c : ascii),
    String.get i s = Some c
    /\ ((is_sign c /\ i <> 0%nat)
        \/ (is_point c
            /\ exists (j : nat) (d : ascii),
                (j < i)%nat /\ String.get j s = Some d /\ is_point d)
        \/ ~ In c alphabet).

(** The input starts with the digit ['0'] and holds a sign further on. *)
Definition sign_after_leading_zero (s : string) : Prop :=
  exists (t : string) (c : ascii),
    s = String "0"%char t /\ In c (list_ascii_of_string t) /\ is_sign c.

Definition setNegative (st : parseState) : parseState :=
  mkState (value st) (decimals st) true (mul st).

(** The number a string of decimal digits denotes, read after [acc]. *)
Fixpoint decValueFrom (acc : Z) (s : string) : Z :=
  match s with
  | EmptyString => acc
  | String c t => decValueFrom (acc * 10 + (byte_of c - 48)) t
  end.

Definition decValue (s : string) : Z := decValueFrom 0 s.

Fixpoint all_digits (s : string) : Prop :=
  match s with
  | EmptyString => True
  | String c t => is_digit (byte_of c) = true /\ all_digits t
  end.

(** The last byte of a string, if any. *)
Definition last_char (s : string) : option ascii :=
  String.get (Nat.pred (String.length s)) s.

(** The right string as the specification words it: the remainder padded
    to [log10(largest unit) - log10(unit)] digits, trailing zeros
    stripped. *)
Definition rightStr_claimed (a unit : Amount) : string :=
  let right := snd (split a unit) in
  let padded := sprintf_0d (log10 BTC - log10 unit) right in
  stripLoop (Nat.pred (String.length padded)) padded.

(** A JSON string literal: [s] between two quote bytes. *)
Definition quoted (s : string) : string :=
  String quote (s ++ String quote EmptyString).

(** Equality modulo [2^64], the arithmetic [wrap] computes in. *)
Inductive eqm64 (x y : Z) : Prop :=
| eqm64_intro : x mod Int64.modulus = y mod Int64.modulus -> eqm64 x y.

(** An optional minus sign in front of a number, and its effect. *)
Definition signStr (neg : bool) : string :=
  if neg then "-" else EmptyString.

Definition signed (neg : bool) (v : Amount) : Amount :=
  if neg then Int64.neg v else v.

(** * The earlier revision, where the boundary is a digit position

    [src/Amount.go] (and, with the type named [Bitcoin],
    [src/unnamed/part_001]) holds the revision before [split] took a unit:
    [split] and [SplitString] take a position [pos], the number of digits
    to the right of the BTC decimal point, and [BTC], [MilliBTC] and
    [Satoshi] are methods besides [String].  A division by a [posValue]
    that has wrapped to zero panics; the result is [None] then.  The
    methods [BTC], [MilliBTC], [Satoshi] and [String] carry a trailing
    underscore here, their names being those of the unit constants. *)

Module AmountGo.

(** [for i := 8; i > pos; i-- { posValue *= 10 }], [n] turns to go. *)
Fixpoint posLoop (n : nat) (posValue : Amount) : Amount :=
  match n with
  | O => posValue
  | S k => posLoop k (Int64.mul posValue 10)
  end.

(** The value of [posValue] after the loop of [split]. *)
Definition posValue (pos : Z) : Amount :=
  posLoop (Z.to_nat (8 - pos)) (Int64.mul 1 Satoshi).

(** [func (a Amount) split(pos int) (int, int)] *)
Definition split (a : Amount) (pos : Z) : option (Z * Z) :=
  let posValue := posValue pos in
  if posValue =? 0 then None
  else
    let right := Int64.rem a posValue in
    let left := Int64.quo (Int64.sub a right) posValue in
    Some (left, Abs right).

(** [func (a Amount) SplitString(pos int) (string, string)] *)
Definition SplitString (a : Amount) (pos : Z) : option (string * string) :=
  match split a pos with
  | None => None
  | Some p =>
      let (left, right) := p in
      let leftStr := sprintf_d left in
      let rightStr := sprintf_width (Int64.sub 8 pos) right in
      Some (leftStr, stripLoop (Nat.pred (String.length rightStr)) rightStr)
  end.

(** The two returns [BTC], [MilliBTC] and [String] end in:
    [fmt.Sprintf("%s %s", left, unit)] when [right == "0"], else
    [fmt.Sprintf("%s.%s %s", left, right, unit)]. *)
Definition withUnit (left right unit : string) : string :=
  if String.eqb right "0" then left ++ " " ++ unit
  else left ++ "." ++ right ++ " " ++ unit.

(** [func (a Amount) BTC() string] *)
Definition BTC_ (a : Amount) : option string :=
  match SplitString a 0 with
  | None => None
  | Some p => let (left, right) := p in Some (withUnit left right "BTC")
  end.

(** [func (a Amount) MilliBTC() string] *)
Definition MilliBTC_ (a : Amount) : option string :=
  match SplitString a 3 with
  | None => None
  | Some p => let (left, right) := p in Some (withUnit left right "mBTC")
  end.

(** [func (a Amount) Satoshi() string] *)
Definition Satoshi_ (a : Amount) : string := sprintf_d a ++ " sats".

(** [func (a Amount) String() string] *)
Definition String_ (a : Amount) : option string :=
  if (Abs a >? BTC) || (a =? 0) then
    match SplitString a 0 with
    | None => None
    | Some p => let (left, right) := p in Some (withUnit left right "BTC")
    end
  else if Abs a >? MilliBTC then
    match SplitString a 3 with
    | None => None
    | Some p => let (left, right) := p in Some (withUnit left right "mBTC")
    end
  else Some (withUnit (sprintf_d a) "0" "sats").

(** [func (a Amount) MarshalText() (text []byte, err error)] *)
Definition MarshalText (a : Amount) : option (string * option error) :=
  match SplitString a 0 with
  | None => None
  | Some p => let (left, right) := p in Some (left ++ "." ++ right, None)
  end.

End AmountGo.

(** * The tables of [Amount_test.go]

    [max] and [min] are [fmt.Sprintf("%d.0", math.MaxInt64/BTC)] and
    [fmt.Sprintf("%d.0", math.MinInt64/BTC)]. *)

Definition test_max : string := "92233720368.0".
Definition test_min : string := "-92233720368.0".

(** [TestParse]: input and expected amount (the error is discarded). *)
Definition TestParse_cases : list (string * Amount) :=
  [ (EmptyString, 0); ("0", 0); ("2", 2 * BTC); ("20", 20 * BTC);
    ("0.1", 100 * MilliBTC); ("0.100", 100 * MilliBTC);
    ("0.12345678", 12345678 * Satoshi);
    ("1.1", BTC + 100 * MilliBTC); ("1.100", BTC + 100 * MilliBTC);
    ("1.12345678", BTC + 12345678 * Satoshi);
    ("20.1", 20 * BTC + 100 * MilliBTC);
    ("20.100", 20 * BTC + 100 * MilliBTC);
    ("20.12345678", 20 * BTC + 12345678 * Satoshi);
    ("0020.1", 20 * BTC + 100 * MilliBTC);
    ("020.100", 20 * BTC + 100 * MilliBTC);
    ("020.12345678", 20 * BTC + 12345678 * Satoshi);
    ("300.12345678", 300 * BTC + 12345678 * Satoshi);
    ("0020.0", 20 * BTC); ("0020.00000004", 20 * BTC + 4 * Satoshi);
    ("-20.1", -20 * BTC + -100 * MilliBTC);
    ("+20.1", 20 * BTC + 100 * MilliBTC);
    ("0020..0", 0); ("++0020.0", 0); ("--0020.0", 0); ("0+020.0", 0);
    ("0-020.0", 0); ("0.0 BTC", 0);
    (test_max, 92233720368 * BTC); (test_min, -92233720368 * BTC) ].

(** [TestString]: input of [Parse] and expected [String()]. *)
Definition TestString_cases : list (string * string) :=
  [ ("0", "0 BTC"); ("2", "2 BTC"); ("2.01", "2.01 BTC");
    ("0.002", "2 mBTC"); ("0.00023", "23000 sats"); ("-2", "-2 BTC");
    ("-2.01", "-2.01 BTC"); ("-0.002", "-2 mBTC");
    ("-0.00023", "-23000 sats"); (test_max, "92233720368 BTC");
    (test_min, "-92233720368 BTC") ].

(** [TestSplit]: input of [Parse], unit, expected parts. *)
Definition TestSplit_cases : list (string * Amount * Z * Z) :=
  [ ("0", 0, 0, 0);
    ("0.12345678", BTC, 0, 12345678);
    ("0.12345678", 100 * MilliBTC, 1, 2345678);
    ("0.12345678", 10 * MilliBTC, 12, 345678);
    ("0.12345678", MilliBTC, 123, 45678);
    ("0.12345678", 100 * MicroBTC, 1234, 5678);
    ("0.12345678", 10 * MicroBTC, 12345, 678);
    ("0.12345678", MicroBTC, 123456, 78);
    ("0.12345678", 10 * Satoshi, 1234567, 8);
    ("0.12345678", Satoshi, 12345678, 0);
    ("1.12345678", BTC, 1, 12345678);
    ("1.12345678", 100 * MilliBTC, 11, 2345678);
    ("1.12345678", 10 * MilliBTC, 112, 345678);
    ("1.12345678", MilliBTC, 1123, 45678);
    ("-1.12345678", 100 * MicroBTC, -11234, 5678);
    ("1.12345678", 10 * MicroBTC, 112345, 678);
    ("1.12345678", MicroBTC, 1123456, 78);
    ("1.12345678", 10 * Satoshi, 11234567, 8);
    ("1.12345678", Satoshi, 112345678, 0);
    ("10.12345678", BTC, 10, 12345678);
    ("10.12345678", 100 * MilliBTC, 101, 2345678);
    ("10.12345678", 10 * MilliBTC, 1012, 345678);
    ("10.12345678", MilliBTC, 10123, 45678);
    ("10.12345678", 100 * MicroBTC, 101234, 5678);
    ("10.12345678", 10 * MicroBTC, 1012345, 678);
    ("-10.12345678", MicroBTC, -10123456, 78);
    ("10.12345678", 10 * Satoshi, 101234567, 8);
    ("10.12345678", Satoshi, 1012345678, 0);
    ("10.12345678", 10 * BTC, 1, 12345678);
    ("10.12345678", 100 * BTC, 0, 1012345678);
    ("10.12345678", 1000 * BTC, 0, 1012345678);
    ("10.12345678", 10000 * BTC, 0, 1012345678);
    (test_max, BTC, 92233720368, 0);
    (test_min, BTC, -92233720368, 0) ].

(** [TestSplitString]: input of [Parse], unit, expected strings. *)
Definition TestSplitString_cases : list (string * Amount * string * string) :=
  [ ("0", BTC, "0", "0");
    ("0.12345678", BTC, "0", "12345678");
    ("0.12345678", 100 * MilliBTC, "1", "2345678");
    ("0.12345678", 10 * MilliBTC, "12", "345678");
    ("0.12345678", MilliBTC, "123", "45678");
    ("0.12345678", 100 * MicroBTC, "1234", "5678");
    ("0.12345678", 10 * MicroBTC, "12345", "678");
    ("0.12345678", MicroBTC, "123456", "78");
    ("0.12345678", 10 * Satoshi, "1234567", "8");
    ("0.12345678", Satoshi, "12345678", "0");
    ("1.12345678", BTC, "1", "12345678");
    ("1.12345678", 100 * MilliBTC, "11", "2345678");
    ("1.12345678", 10 * MilliBTC, "112", "345678");
    ("1.12345678", MilliBTC, "1123", "45678");
    ("-1.12345678", 100 * MicroBTC, "-11234", "5678");
    ("1.12345678", 10 * MicroBTC, "112345", "678");
    ("1.12345678", MicroBTC, "1123456", "78");
    ("1.12345678", 10 * Satoshi, "11234567", "8");
    ("1.12345678", Satoshi, "112345678", "0");
    ("10.0012", BTC, "10", "0012");
    ("10.12345678", BTC, "10", "12345678");
    ("10.12345678", 100 * MilliBTC, "101", "2345678");
    ("10.12345678", 10 * MilliBTC, "1012", "345678");
    ("10.12345678", MilliBTC, "10123", "45678");
    ("10.12345678", 100 * MicroBTC, "101234", "5678");
    ("10.12345678", 10 * MicroBTC, "1012345", "678");
    ("-10.12345678", MicroBTC, "-10123456", "78");
    ("10.12345678", 10 * Satoshi, "101234567", "8");
    ("10.12345678", Satoshi, "1012345678", "0");
    ("10.12345678", 10 * BTC, "1", "012345678");
    ("10.12345678", 100 * BTC, "0", "1012345678");
    ("10.12345678", 1000 * BTC, "0", "01012345678");
    ("10.12345678", 10000 * BTC, "0", "001012345678");
    (test_max, BTC, "92233720368", "0");
    (test_min, BTC, "-92233720368", "0") ].

(** The bodies of the four test loops: a row passes. *)
Definition TestParse_row (c : string * Amount) : bool :=
  let (input, expected) := c in
  fst (Parse input) =? expected.

Definition TestString_row (c : string * string) : bool :=
  let (input, expected) := c in
  String.eqb (String_ (fst (Parse input))) expected.

Definition TestSplit_row (c : string * Amount * Z * Z) : bool :=
  let '(input, pos, part1, part2) := c in
  let (result1, result2) := split (fst (Parse input)) pos in
  (result1 =? part1) && (result2 =? part2).

Definition TestSplitString_row (c : string * Amount * string * string)
  : bool :=
  let '(input, pos, part1, part2) := c in
  let (result1, result2) := SplitString (fst (Parse input)) pos in
  String.eqb result1 part1 && String.eqb result2 part2.

(** The unit [String] is said to choose, by the magnitude [|a|] of the
    amount: the exponent of the unit and the suffix it prints. *)
Definition displayUnit (a : Amount) : Z * string :=
  if (Z.abs a >? BTC) || (a =? 0) then (8, " BTC")
  else if Z.abs a >? MilliBTC then (5, " mBTC")
  else (0, " sats").

(** [out] is the amount [a] written in units of [10^k]: the truncated
    quotient in decimal, and, when the remainder is not zero, a ['.'] and
    the digits of the remainder's magnitude at [k] decimal places, zeros
    at the right end left off. *)
Definition rendered (a : Amount) (k : Z) (out : string) : Prop :=
  let q := Z.quot a (10 ^ k) in
  let r := Z.abs (Z.rem a (10 ^ k)) in
  (r = 0 /\ out = sprintf_d q)
  \/ (r <> 0
      /\ exists rs : string,
          out = sprintf_d q ++ "." ++ rs
          /\ all_digits rs
          /\ 1 <= len rs <= k
          /\ last_char rs <> Some "0"%char
          /\ decValue rs * 10 ^ (k - len rs) = r).

(** * Properties *)

(** ** The tables of the test file, a sample *)

Example Parse_empty : Parse EmptyString = (0, None).
Proof. reflexivity. Qed.

Example Parse_20_1 : Parse "20.1" = (20 * BTC + 100 * MilliBTC, None).
Proof. reflexivity. Qed.

Example Parse_neg_20_1 : Parse "-20.1" = (- (20 * BTC) - 100 * MilliBTC, None).
Proof. reflexivity. Qed.

Example Parse_small : Parse "0020.00000004" = (20 * BTC + 4 * Satoshi, None).
Proof. reflexivity. Qed.

Example Parse_max : Parse "92233720368.0" = (92233720368 * BTC, None).
Proof. reflexivity. Qed.

Example Parse_two_points : Parse "0020..0" = (0, Some TooManyDecimalPoints).
Proof. reflexivity. Qed.

Example Parse_suffix :
  Parse "0.0 BTC" = (0, Some (UnknownCharacter 32 "0.0 BTC")).
Proof. reflexivity. Qed.

Example split_test_1 : split 12345678 (100 * MilliBTC) = (1, 2345678).
Proof. reflexivity. Qed.

Example split_test_2 : split (-112345678) (100 * MicroBTC) = (-11234, 5678).
Proof. reflexivity. Qed.

Example split_test_3 : split 1012345678 (100 * BTC) = (0, 1012345678).
Proof. reflexivity. Qed.

Example SplitString_test_1 : SplitString 1000120000 BTC = ("10", "0012").
Proof. reflexivity. Qed.

Example SplitString_test_2 :
  SplitString 1012345678 (10000 * BTC) = ("0", "001012345678").
Proof. reflexivity. Qed.

Example SplitString_test_3 :
  SplitString (-1012345678) MicroBTC = ("-10123456", "78").
Proof. reflexivity. Qed.

Example SplitString_test_4 : SplitString 1012345678 Satoshi = ("1012345678", "0").
Proof. reflexivity. Qed.

Example SplitString_test_5 : SplitString 0 BTC = ("0", "0").
Proof. reflexivity. Qed.

Example String_test_1 : String_ 201000000 = "2.01 BTC".
Proof. reflexivity. Qed.

Example String_test_2 : String_ (-200000) = "-2 mBTC".
Proof. reflexivity. Qed.

Example String_test_3 : String_ (-23000) = "-23000 sats".
Proof. reflexivity. Qed.

Example String_test_4 : String_ (-9223372036800000000) = "-92233720368 BTC".
Proof. reflexivity. Qed.

(** ** Wrap-around arithmetic *)

Lemma wrap_id (z : Z) : Int64.in_range z -> Int64.wrap z = z.
Proof.
  unfold Int64.in_range, Int64.wrap, Int64.min_int, Int64.max_int,
    Int64.modulus.
  intros H. rewrite Z.mod_small; lia.
Qed.

Lemma wrap_in_range (z : Z) : Int64.in_range (Int64.wrap z).
Proof.
  unfold Int64.in_range, Int64.wrap, Int64.min_int, Int64.max_int,
    Int64.modulus.
  pose proof (Z.mod_pos_bound (z + 2 ^ 63) (2 ^ 64) ltac:(lia)). lia.
Qed.

Lemma pow10_bounds (k : Z) : 0 <= k <= 18 -> 1 <= 10 ^ k <= 10 ^ 18.
Proof.
  intros H. split.
  - pose proof (Z.pow_pos_nonneg 10 k ltac:(lia) ltac:(lia)). lia.
  - apply Z.pow_le_mono_r; lia.
Qed.

(** ** split *)

Lemma rem_pos_facts (a u : Z) :
  0 <= a -> 0 < u -> 0 <= Z.rem a u <= a /\ Z.rem a u < u.
Proof.
  intros Ha Hu.
  pose proof (Z.rem_bound_pos a u Ha Hu).
  pose proof (Z.rem_le a u Ha Hu). lia.
Qed.

Lemma rem_neg_facts (a u : Z) :
  a < 0 -> 0 < u -> a <= Z.rem a u <= 0 /\ - u < Z.rem a u.
Proof.
  intros Ha Hu.
  pose proof (rem_pos_facts (- a) u ltac:(lia) Hu) as H.
  rewrite Z.rem_opp_l in H by lia. lia.
Qed.

(** Away from its two guards, [split] is truncating division: no
    intermediate result leaves the [int64] range. *)
Lemma split_quot_rem (a u : Amount) :
  Int64.in_range a -> a <> 0 -> 0 < u <= Int64.max_int ->
  split a u = (Z.quot a u, Z.abs (Z.rem a u)).
Proof.
  intros Ha Hnz [Hu Hmax]. unfold split. unfold Int64.max_int in Hmax.
  destruct (Z.eqb_spec a 0) as [|_]; [contradiction|].
  destruct (Z.eqb_spec u 0) as [|_]; [lia|].
  pose proof (Z.quot_rem' a u) as Hqr.
  assert (Hq : Z.quot (a - Z.rem a u) u = Z.quot a u).
  { replace (a - Z.rem a u) with (Z.quot a u * u) by lia.
    apply Z.quot_mul. lia. }
  unfold Int64.in_range, Int64.min_int, Int64.max_int in Ha.
  destruct (Z.le_gt_cases 0 a) as [Hp|Hn].
  - destruct (rem_pos_facts a u Hp Hu) as [Hr1 Hr2].
    pose proof (Z.quot_pos a u Hp Hu) as Hq0.
    assert (Hqa : Z.quot a u <= a) by nia.
    unfold Int64.rem, Int64.sub, Int64.quo.
    rewrite (wrap_id (Z.rem a u))
      by (unfold Int64.in_range, Int64.min_int, Int64.max_int; lia).
    rewrite (wrap_id (a - Z.rem a u))
      by (unfold Int64.in_range, Int64.min_int, Int64.max_int; lia).
    rewrite Hq.
    rewrite (wrap_id (Z.quot a u))
      by (unfold Int64.in_range, Int64.min_int, Int64.max_int; lia).
    unfold Abs. destruct (Z.ltb_spec (Z.rem a u) 0); [lia|].
    f_equal. lia.
  - destruct (rem_neg_facts a u Hn Hu) as [Hr1 Hr2].
    assert (Hq0 : Z.quot a u <= 0) by nia.
    assert (Hqa : a <= Z.quot a u) by nia.
    unfold Int64.rem, Int64.sub, Int64.quo.
    rewrite (wrap_id (Z.rem a u))
      by (unfold Int64.in_range, Int64.min_int, Int64.max_int; lia).
    rewrite (wrap_id (a - Z.rem a u))
      by (unfold Int64.in_range, Int64.min_int, Int64.max_int; lia).
    rewrite Hq.
    rewrite (wrap_id (Z.quot a u))
      by (unfold Int64.in_range, Int64.min_int, Int64.max_int; lia).
    unfold Abs. destruct (Z.ltb_spec (Z.rem a u) 0).
    + unfold Int64.neg.
      rewrite wrap_id
        by (unfold Int64.in_range, Int64.min_int, Int64.max_int; lia).
      f_equal. lia.
    + f_equal. lia.
Qed.

Lemma rem_sign (a u : Z) :
  0 < u -> Z.sgn a * Z.abs (Z.rem a u) = Z.rem a u.
Proof.
  intros Hu.
  destruct (Z.lt_trichotomy a 0) as [Hn|[Hz|Hp]].
  - pose proof (rem_neg_facts a u Hn Hu).
    rewrite (Z.sgn_neg a Hn). lia.
  - subst a. rewrite Z.rem_0_l by lia. reflexivity.
  - pose proof (rem_pos_facts a u ltac:(lia) Hu).
    rewrite (Z.sgn_pos a Hp). lia.
Qed.

(** At a power of ten, the zero amount included. *)
Lemma split_pow10 (a : Amount) (k : Z) :
  Int64.in_range a -> 0 <= k <= 18 ->
  split a (10 ^ k) = (Z.quot a (10 ^ k), Z.abs (Z.rem a (10 ^ k))).
Proof.
  intros Ha Hk.
  pose proof (pow10_bounds k Hk) as Hu.
  destruct (Z.eq_dec a 0) as [->|Hnz].
  - unfold split. change (0 =? 0) with true. cbv iota.
    rewrite Z.rem_0_l, Z.quot_0_l by lia. reflexivity.
  - apply split_quot_rem; [assumption|assumption|].
    unfold Int64.max_int. lia.
Qed.

(** C3. For an [Amount] [a] and a unit [u = 10^k] (k from 0 to 18, the
    powers of ten an [int64] holds), [split a u = (left, right)] satisfies
    [left * u + sign(a) * right = a]; [right] is the absolute value of the
    truncating remainder of [a] by [u], [left] the truncating quotient,
    and the remainder, when it is not zero, has the sign of [a]. *)
Theorem split_invariant (a : Amount) (k : Z) :
  Int64.in_range a -> 0 <= k <= 18 ->
  let u := 10 ^ k in
  let (left, right) := split a u in
  left * u + Z.sgn a * right = a
  /\ right = Z.abs (Z.rem a u)
  /\ left = Z.quot a u
  /\ (Z.rem a u <> 0 -> Z.sgn (Z.rem a u) = Z.sgn a).
Proof.
  intros Ha Hk u.
  pose proof (pow10_bounds k Hk) as Hu. fold u in Hu.
  unfold u at 1. rewrite (split_pow10 a k Ha Hk). fold u.
  pose proof (Z.quot_rem' a u) as Hqr.
  pose proof (rem_sign a u ltac:(lia)) as Hs.
  repeat split.
  - lia.
  - intros Hr. apply Z.rem_sign_nz; lia.
Qed.

Lemma split_invariant_witness :
  let (left, right) := split (-112345678) (10 ^ 4) in
  left * 10 ^ 4 + Z.sgn (-112345678) * right = -112345678
  /\ right = Z.abs (Z.rem (-112345678) (10 ^ 4))
  /\ left = Z.quot (-112345678) (10 ^ 4)
  /\ (Z.rem (-112345678) (10 ^ 4) <> 0 ->
      Z.sgn (Z.rem (-112345678) (10 ^ 4)) = Z.sgn (-112345678)).
Proof.
  apply (split_invariant (-112345678) 4).
  - unfold Int64.in_range, Int64.min_int, Int64.max_int. lia.
  - lia.
Defined.

(** C9. [split] of a non-zero [Amount] at the zero unit returns the
    sentinel [(0, -1)], and [split] of the zero [Amount] returns [(0, 0)]
    at every unit, the zero unit included. *)
Theorem split_degenerate :
  (forall a : Amount, a <> 0 -> split a 0 = (0, -1))
  /\ (forall u : Amount, split 0 u = (0, 0))
  /\ split 0 0 = (0, 0).
Proof.
  repeat split.
  intros a Ha. unfold split.
  destruct (Z.eqb_spec a 0); [contradiction|reflexivity].
Qed.

Lemma split_degenerate_witness : split 42 0 = (0, -1).
Proof.
  apply (proj1 split_degenerate 42). discriminate.
Defined.

(** ** The unmarshal adapters leave the receiver alone on failure *)

Lemma UnmarshalText_error (a : Amount) (text : string) :
  snd (UnmarshalText a text) <> None ->
  fst (UnmarshalText a text) = a /\ snd (UnmarshalText a text) = snd (Parse text).
Proof.
  unfold UnmarshalText. destruct (Parse text) as [d [e|]]; simpl.
  - auto.
  - intros H. contradiction.
Qed.

Lemma UnmarshalText_ok (a : Amount) (text : string) :
  snd (Parse text) = None ->
  UnmarshalText a text = (fst (Parse text), None).
Proof.
  unfold UnmarshalText. destruct (Parse text) as [d [e|]]; simpl.
  - discriminate.
  - reflexivity.
Qed.

Lemma UnmarshalJSON_error
  (float64 : Type) (jsonUnmarshalFloat : string -> option float64)
  (sprintf_08f : float64 -> string) (a : Amount) (input : string) :
  snd (UnmarshalJSON float64 jsonUnmarshalFloat sprintf_08f a input)
    <> None ->
  fst (UnmarshalJSON float64 jsonUnmarshalFloat sprintf_08f a input) = a
  /\ snd (UnmarshalJSON float64 jsonUnmarshalFloat sprintf_08f a input)
     = snd (Parse (jsonPayload input)).
Proof.
  unfold UnmarshalJSON.
  pose proof (UnmarshalText_error a (jsonPayload input)) as Ht.
  destruct (UnmarshalText a (jsonPayload input)) as [a1 [e|]]; simpl in *.
  - destruct Ht as [-> Hp]; [discriminate|].
    destruct (jsonUnmarshalFloat (jsonPayload input)) as [f|]; simpl.
    + destruct (Parse (sprintf_08f f)) as [v [e2|]]; simpl.
      * auto.
      * intros H. contradiction.
    + auto.
  - intros H. contradiction.
Qed.

(** C10. When [UnmarshalText] or [UnmarshalJSON] returns a non-nil error
    the receiver keeps the value it had before the call, whatever the
    JSON float decoder and the float formatter do. *)
Theorem unmarshal_error_keeps_receiver
  (float64 : Type) (jsonUnmarshalFloat : string -> option float64)
  (sprintf_08f : float64 -> string) (a : Amount) (input : string) :
  (snd (UnmarshalText a input) <> None -> fst (UnmarshalText a input) = a)
  /\ (snd (UnmarshalJSON float64 jsonUnmarshalFloat sprintf_08f a input)
        <> None ->
      fst (UnmarshalJSON float64 jsonUnmarshalFloat sprintf_08f a input) = a).
Proof.
  split.
  - intros H. apply (UnmarshalText_error a input H).
  - intros H.
    apply (UnmarshalJSON_error float64 jsonUnmarshalFloat sprintf_08f
             a input H).
Qed.

Lemma unmarshal_error_keeps_receiver_witness :
  fst (UnmarshalText 7 "1.2.3") = 7
  /\ fst (UnmarshalJSON unit (fun _ => None) (fun _ => EmptyString)
            7 "1.2.3") = 7.
Proof.
  split.
  - apply (proj1 (unmarshal_error_keeps_receiver
                    unit (fun _ => None) (fun _ => EmptyString) 7 "1.2.3")).
    discriminate.
  - apply (proj2 (unmarshal_error_keeps_receiver
                    unit (fun _ => None) (fun _ => EmptyString) 7 "1.2.3")).
    discriminate.
Defined.

(** ** Which inputs Parse rejects *)

Lemma byte_of_range (c : ascii) : 0 <= byte_of c < 256.
Proof.
  unfold byte_of. pose proof (N_ascii_bounded c). lia.
Qed.

Lemma bytes_range (s : string) : Forall (fun b => 0 <= b < 256) (bytes s).
Proof.
  unfold bytes. apply Forall_forall. intros b Hb.
  apply in_map_iff in Hb. destruct Hb as (c & <- & _).
  apply byte_of_range.
Qed.

(** A byte below 128 is a rune of its own; any other leading byte decodes
    to a rune of at least 128, [RuneError] included. *)
Lemma decodeRune_head (b : Z) (t : list Z) :
  0 <= b < 256 -> Forall (fun b => 0 <= b < 256) t ->
  (b < 128 /\ decodeRune (b :: t) = (b, 1%nat))
  \/ (128 <= b /\ 128 <= fst (decodeRune (b :: t))).
Proof.
  intros Hb Ht. unfold decodeRune, is_cont, RuneError.
  destruct (Z.ltb_spec b 128) as [Hlt|Hge]; [left; auto|right].
  split; [assumption|].
  repeat match goal with
         | |- context [match ?l with [] => _ | _ :: _ => _ end] =>
             destruct l; simpl
         | H : Forall _ (_ :: _) |- _ => inversion H; subst; clear H
         | |- context [if ?c then _ else _] =>
             let E := fresh "E" in destruct c eqn:E; simpl
         end; try lia;
  repeat match goal with
         | H : (_ && _)%bool = true |- _ =>
             apply andb_true_iff in H; destruct H
         | H : (_ <=? _) = true |- _ => apply Z.leb_le in H
         | H : (_ =? _) = true |- _ => apply Z.eqb_eq in H
         | H : (_ =? _) = false |- _ => apply Z.eqb_neq in H
         | H : context [if ?c then _ else _] |- _ =>
             let E := fresh "E" in destruct c eqn:E
         end; lia.
Qed.

Lemma Offending_cons (pos : Z) (dec : bool) (b : Z) (t : list Z) :
  0 <= pos ->
  Offending pos dec (b :: t) <->
  ((signB b = true /\ pos <> 0) \/ (pointB b = true /\ dec = true)
   \/ allowedB b = false)
  \/ Offending (pos + 1) (dec || pointB b) t.
Proof.
  intros Hpos. unfold Offending. split.
  - intros (i & c & Hi & H). destruct i as [|i]; simpl in Hi.
    + injection Hi as <-. left.
      destruct H as [[H1 H2]|[[H1 [H2|(j & d & Hj & _)]]|H]].
      * left. split; [assumption|lia].
      * right. left. auto.
      * lia.
      * right. right. assumption.
    + right. exists i, c. split; [assumption|].
      destruct H as [[H1 H2]|[[H1 [H2|(j & d & Hj & Hd & Hp)]]|H]].
      * left. split; [assumption|lia].
      * right. left. split; [assumption|]. left. rewrite H2. reflexivity.
      * right. left. split; [assumption|].
        destruct j as [|j]; simpl in Hd.
        -- injection Hd as <-. left. rewrite Hp. apply orb_true_r.
        -- right. exists j, d. repeat split; [lia|assumption|assumption].
      * right. right. assumption.
  - intros [H|(i & c & Hi & H)].
    + exists 0%nat, b. split; [reflexivity|].
      destruct H as [[H1 H2]|[[H1 H2]|H]].
      * left. split; [assumption|lia].
      * right. left. auto.
      * right. right. assumption.
    + exists (S i), c. split; [assumption|].
      destruct H as [[H1 H2]|[[H1 [H2|(j & d & Hj & Hd & Hp)]]|H]].
      * left. split; [assumption|lia].
      * right. left. split; [assumption|].
        apply orb_true_iff in H2. destruct H2 as [H2|H2].
        -- left. assumption.
        -- right. exists 0%nat, b. repeat split; [lia|assumption].
      * right. left. split; [assumption|]. right.
        exists (S j), d. repeat split; [lia|assumption|assumption].
      * right. right. assumption.
Qed.

Lemma Offending_nil (pos : Z) (dec : bool) : ~ Offending pos dec [].
Proof.
  intros (i & b & Hi & _). destruct i; discriminate Hi.
Qed.

(** The scan fails exactly on the inputs that hold an offending byte. *)
Lemma scan_error_iff (input : string) (bs : list Z) :
  Forall (fun b => 0 <= b < 256) bs ->
  forall (pos : Z) (st : parseState),
    0 <= pos ->
    snd (scan input (rangeFrom pos 0 bs) st) <> None
    <-> Offending pos (decimals st) bs.
Proof.
  induction 1 as [|b t Hb Ht IH]; intros pos st Hpos.
  - simpl. split.
    + destruct (negative st); simpl; intros H; contradiction.
    + intros H. exfalso. exact (Offending_nil _ _ H).
  - rewrite (Offending_cons pos (decimals st) b t Hpos).
    cbn [rangeFrom].
    destruct (decodeRune_head b t Hb Ht) as [[Hlt ->]|[Hge Hr]].
    + cbn [Nat.pred scan]. unfold allowedB, signB, pointB, is_digit.
      destruct (Z.eqb_spec b 43) as [->|N43].
      { cbn. destruct (Z.eqb_spec pos 0) as [->|Hp].
        - rewrite (IH 1 st ltac:(lia)). rewrite orb_false_r.
          split; [auto|]. intros [[[_ H]|[[H _]|H]]|H];
            [contradiction|discriminate|discriminate|assumption].
        - simpl. split; [auto|discriminate]. }
      destruct (Z.eqb_spec b 45) as [->|N45].
      { cbn. destruct (Z.eqb_spec pos 0) as [->|Hp].
        - rewrite (IH 1 _ ltac:(lia)). cbn [decimals]. rewrite orb_false_r.
          split; [auto|]. intros [[[_ H]|[[H _]|H]]|H];
            [contradiction|discriminate|discriminate|assumption].
        - simpl. split; [auto|discriminate]. }
      cbn [orb].
      destruct ((48 <=? b) && (b <=? 57)) eqn:Ed.
      { rewrite (IH (pos + 1) _ ltac:(lia)).
        assert (Hdec : decimals (add st (runeVal b)) = decimals st).
        { unfold add. destruct (negb (decimals st)); reflexivity. }
        rewrite Hdec.
        apply andb_true_iff in Ed. destruct Ed as [E1 E2].
        apply Z.leb_le in E1. apply Z.leb_le in E2.
        destruct (Z.eqb_spec b 46); [lia|].
        destruct (Z.eqb_spec b 44); [lia|].
        rewrite !orb_false_r.
        split; [auto|]. intros [[[H _]|[[H _]|H]]|H];
          [discriminate|discriminate|discriminate|assumption]. }
      destruct ((b =? 46) || (b =? 44)) eqn:Ep.
      { destruct (decimals st) eqn:Edec.
        - simpl. split; [auto|discriminate].
        - rewrite (IH (pos + 1) _ ltac:(lia)). cbn [decimals orb].
          split; [auto|]. intros [[[H _]|[[_ H]|H]]|H];
            [discriminate|discriminate|discriminate|assumption]. }
      simpl. split; [auto|discriminate].
    + destruct (decodeRune (b :: t)) as [r size]. simpl in Hr.
      cbn [scan].
      destruct (Z.eqb_spec r 43); [lia|].
      destruct (Z.eqb_spec r 45); [lia|].
      unfold is_digit. destruct (Z.leb_spec r 57); [lia|].
      rewrite andb_false_r.
      destruct (Z.eqb_spec r 46); [lia|].
      destruct (Z.eqb_spec r 44); [lia|].
      simpl. split; [|discriminate]. intros _. left. right. right.
      unfold allowedB, signB, pointB, is_digit.
      destruct (Z.eqb_spec b 43); [lia|].
      destruct (Z.eqb_spec b 45); [lia|].
      destruct (Z.eqb_spec b 46); [lia|].
      destruct (Z.eqb_spec b 44); [lia|].
      destruct (Z.leb_spec b 57); [lia|].
      rewrite andb_false_r. reflexivity.
Qed.

(** Every failing return of the scan carries the zero [Amount]. *)
Lemma scan_error_value (input : string) (rs : list (Z * Z)) :
  forall st : parseState,
    snd (scan input rs st) <> None -> fst (scan input rs st) = 0.
Proof.
  induction rs as [|[pos r] rest IH]; intros st; cbn [scan].
  - destruct (negative st); simpl; intros H; contradiction.
  - repeat match goal with
           | |- context [if ?c then _ else _] => destruct c
           end; auto.
Qed.

(** The same, on the characters of the input string. *)

Lemma signB_byte_of (c : ascii) : signB (byte_of c) = true <-> is_sign c.
Proof.
  unfold is_sign.
  assert (H : signB (byte_of c) = (Ascii.eqb c "+" || Ascii.eqb c "-")%bool).
  { destruct c as [[] [] [] [] [] [] [] []]; reflexivity. }
  rewrite H, orb_true_iff, !Ascii.eqb_eq. reflexivity.
Qed.

Lemma pointB_byte_of (c : ascii) : pointB (byte_of c) = true <-> is_point c.
Proof.
  unfold is_point.
  assert (H : pointB (byte_of c) = (Ascii.eqb c "." || Ascii.eqb c ",")%bool).
  { destruct c as [[] [] [] [] [] [] [] []]; reflexivity. }
  rewrite H, orb_true_iff, !Ascii.eqb_eq. reflexivity.
Qed.

Lemma allowedB_byte_of (c : ascii) :
  allowedB (byte_of c) = false <-> ~ In c alphabet.
Proof.
  assert (H : allowedB (byte_of c) = existsb (Ascii.eqb c) alphabet).
  { destruct c as [[] [] [] [] [] [] [] []]; reflexivity. }
  rewrite H. split.
  - intros E Hin.
    assert (Ht : existsb (Ascii.eqb c) alphabet = true).
    { apply existsb_exists. exists c. split; [assumption|apply Ascii.eqb_refl]. }
    congruence.
  - intros Hn. destruct (existsb (Ascii.eqb c) alphabet) eqn:E; [|reflexivity].
    apply existsb_exists in E. destruct E as (x & Hx & Hc).
    apply Ascii.eqb_eq in Hc. subst x. contradiction.
Qed.

Lemma nth_error_bytes (s : string) :
  forall (i : nat) (b : Z),
    nth_error (bytes s) i = Some b
    <-> exists c : ascii, String.get i s = Some c /\ b = byte_of c.
Proof.
  unfold bytes. induction s as [|c s IH]; intros i b.
  - destruct i; simpl; split; try discriminate;
      intros (c & H & _); discriminate.
  - destruct i as [|i]; simpl.
    + split.
      * intros H. injection H as <-. eauto.
      * intros (c' & H & ->). injection H as ->. reflexivity.
    + apply IH.
Qed.

Lemma Offending_offending (s : string) :
  Offending 0 false (bytes s) <-> offending s.
Proof.
  unfold Offending, offending. split.
  - intros (i & b & Hi & H).
    apply nth_error_bytes in Hi. destruct Hi as (c & Hc & ->).
    exists i, c. split; [assumption|].
    destruct H as [[H1 H2]|[[H1 [H2|(j & d & Hj & Hd & Hp)]]|H]].
    + left. split; [apply signB_byte_of; assumption|lia].
    + discriminate.
    + right. left. split; [apply pointB_byte_of; assumption|].
      apply nth_error_bytes in Hd. destruct Hd as (d' & Hd & ->).
      exists j, d'. repeat split; [assumption|assumption|].
      apply pointB_byte_of; assumption.
    + right. right. apply allowedB_byte_of; assumption.
  - intros (i & c & Hc & H).
    exists i, (byte_of c). split; [apply nth_error_bytes; eauto|].
    destruct H as [[H1 H2]|[[H1 (j & d & Hj & Hd & Hp)]|H]].
    + left. split; [apply signB_byte_of; assumption|lia].
    + right. left. split; [apply pointB_byte_of; assumption|].
      right. exists j, (byte_of d). repeat split.
      * assumption.
      * apply nth_error_bytes; eauto.
      * apply pointB_byte_of; assumption.
    + right. right. apply allowedB_byte_of; assumption.
Qed.

Lemma Parse_error_offending (s : string) :
  snd (Parse s) <> None <-> offending s.
Proof.
  unfold Parse, rangeString.
  rewrite (scan_error_iff s (bytes s) (bytes_range s) 0 initState)
    by lia.
  apply Offending_offending.
Qed.

Lemma Parse_error_value (s : string) :
  snd (Parse s) <> None -> fst (Parse s) = 0.
Proof. apply scan_error_value. Qed.

Lemma scan_error_kind (input : string) (rs : list (Z * Z)) :
  forall (st : parseState) (e : error),
    snd (scan input rs st) = Some e ->
    e = StrayPlus \/ e = StrayMinus \/ e = TooManyDecimalPoints
    \/ exists r : Z, e = UnknownCharacter r input.
Proof.
  induction rs as [|[pos r] rest IH]; intros st e; cbn [scan].
  - destruct (negative st); discriminate.
  - repeat match goal with
           | |- context [if ?c then _ else _] => destruct c
           end; simpl; try apply IH; intros H; injection H as <-; eauto.
Qed.

(** C2. [Parse] returns an error exactly when the input holds a ['+'] or
    a ['-'] at a byte offset other than 0, a second decimal marker
    (['.'] or [',']), or a byte outside digits, signs and decimal markers.
    The empty string and the bare ["-"] parse to zero without error, and
    an error is always one of the four kinds. *)
Theorem Parse_error_iff :
  (forall s : string, snd (Parse s) <> None <-> offending s)
  /\ Parse EmptyString = (0, None)
  /\ Parse "-" = (0, None)
  /\ (forall (s : string) (e : error),
        snd (Parse s) = Some e ->
        e = StrayPlus \/ e = StrayMinus \/ e = TooManyDecimalPoints
        \/ exists r : Z, e = UnknownCharacter r s).
Proof.
  split; [exact Parse_error_offending|].
  split; [reflexivity|]. split; [reflexivity|].
  intros s e. apply scan_error_kind.
Qed.

Lemma Parse_error_iff_witness :
  offending "0+1"
  /\ (StrayPlus = StrayPlus \/ StrayPlus = StrayMinus
      \/ StrayPlus = TooManyDecimalPoints
      \/ exists r : Z, StrayPlus = UnknownCharacter r "0+1").
Proof.
  destruct Parse_error_iff as (H1 & _ & _ & H4).
  split.
  - apply (proj1 (H1 "0+1")). discriminate.
  - apply (H4 "0+1" StrayPlus). reflexivity.
Defined.

(** ** A sign after a leading zero *)

Lemma get_list_ascii (t : string) (c : ascii) :
  In c (list_ascii_of_string t) -> exists i : nat, String.get i t = Some c.
Proof.
  induction t as [|d t IH]; simpl.
  - contradiction.
  - intros [->|H].
    + exists 0%nat. reflexivity.
    + destruct (IH H) as (i & Hi). exists (S i). exact Hi.
Qed.

Lemma sign_after_leading_zero_offending (s : string) :
  sign_after_leading_zero s -> offending s.
Proof.
  intros (t & c & -> & Hin & Hc).
  destruct (get_list_ascii t c Hin) as (i & Hi).
  exists (S i), c. split; [exact Hi|]. left. split; [exact Hc|lia].
Qed.

(** C7, as stated, does not hold: no input with a sign after a leading
    zero is accepted; ["0+020.0"] and ["0-020.0"] are rejected with the
    stray-sign errors. *)
Lemma sign_after_zero_not_accepted :
  Parse "0+020.0" = (0, Some StrayPlus)
  /\ Parse "0-020.0" = (0, Some StrayMinus)
  /\ ~ (exists s : string,
          sign_after_leading_zero s /\ snd (Parse s) = None).
Proof.
  split; [reflexivity|]. split; [reflexivity|].
  intros (s & Hs & Hp).
  apply sign_after_leading_zero_offending in Hs.
  apply Parse_error_offending in Hs. contradiction.
Qed.

(** C7, amended. For every input in which a sign follows a leading zero
    digit, [Parse] returns the zero [Amount] together with an error. *)
Theorem sign_after_zero_rejected (s : string) :
  sign_after_leading_zero s ->
  exists e : error, Parse s = (0, Some e).
Proof.
  intros Hs.
  apply sign_after_leading_zero_offending in Hs.
  apply Parse_error_offending in Hs.
  pose proof (Parse_error_value s Hs) as Hv.
  destruct (Parse s) as [v [e|]]; simpl in *.
  - exists e. subst v. reflexivity.
  - contradiction.
Qed.

Lemma sign_after_zero_rejected_witness :
  exists e : error, Parse "0-020.0" = (0, Some e).
Proof.
  apply (sign_after_zero_rejected "0-020.0").
  exists "-020.0", "-"%char. split; [reflexivity|].
  split; [simpl; auto|right; reflexivity].
Defined.

(** ** Sign symmetry *)

Lemma add_setNegative (st : parseState) (d : Amount) :
  add (setNegative st) d = setNegative (add st d).
Proof.
  unfold add, setNegative. cbn [decimals value mul negative].
  destruct (negb (decimals st)); reflexivity.
Qed.

Lemma add_negative (st : parseState) (d : Amount) :
  negative (add st d) = negative st.
Proof.
  unfold add. destruct (negb (decimals st)); reflexivity.
Qed.

Lemma rangeFrom_ascii (pos b : Z) (t : list Z) :
  b < 128 ->
  rangeFrom pos 0 (b :: t) = (pos, b) :: rangeFrom (pos + 1) 0 t.
Proof.
  intros Hb. cbn [rangeFrom decodeRune].
  destruct (Z.ltb_spec b 128); [reflexivity|lia].
Qed.

(** A successful scan that meets no sign at offset 0, run again with the
    [negative] flag set, at other offsets and on behalf of another input,
    succeeds with the negated value. *)
Lemma scan_negated (input input' : string) (bs : list Z) :
  Forall (fun b => 0 <= b < 256) bs ->
  forall (pos pos' : Z) (st : parseState),
    0 <= pos -> 0 < pos' ->
    (pos = 0 -> match bs with b :: _ => signB b = false | [] => True end) ->
    negative st = false ->
    snd (scan input (rangeFrom pos 0 bs) st) = None ->
    scan input' (rangeFrom pos' 0 bs) (setNegative st)
    = (Int64.neg (fst (scan input (rangeFrom pos 0 bs) st)), None).
Proof.
  induction 1 as [|b t Hb Ht IH]; intros pos pos' st Hpos Hpos' Hhd Hneg.
  - simpl. rewrite Hneg. reflexivity.
  - cbn [rangeFrom].
    destruct (decodeRune_head b t Hb Ht) as [[Hlt ->]|[Hge Hr]].
    + cbn [Nat.pred scan].
      assert (Htl : forall p, 0 <= p -> p + 1 = 0 ->
                match t with b :: _ => signB b = false | [] => True end)
        by (intros; lia).
      destruct (Z.eqb_spec b 43) as [->|N43].
      { destruct (Z.eqb_spec pos 0) as [->|Hp].
        - specialize (Hhd eq_refl). discriminate Hhd.
        - simpl. discriminate. }
      destruct (Z.eqb_spec b 45) as [->|N45].
      { destruct (Z.eqb_spec pos 0) as [->|Hp].
        - specialize (Hhd eq_refl). discriminate Hhd.
        - simpl. discriminate. }
      destruct (is_digit b).
      { rewrite add_setNegative.
        apply IH; try lia.
        rewrite add_negative. assumption. }
      destruct ((b =? 46) || (b =? 44)).
      { cbn [decimals setNegative negative value mul].
        destruct (decimals st).
        - simpl. discriminate.
        - apply (IH (pos + 1) (pos' + 1)
                   (mkState (value st) true (negative st) (mul st)));
            try lia. assumption. }
      simpl. discriminate.
    + destruct (decodeRune (b :: t)) as [r size]. simpl in Hr.
      cbn [scan].
      destruct (Z.eqb_spec r 43); [lia|].
      destruct (Z.eqb_spec r 45); [lia|].
      unfold is_digit. destruct (Z.leb_spec r 57); [lia|].
      rewrite andb_false_r.
      destruct (Z.eqb_spec r 46); [lia|].
      destruct (Z.eqb_spec r 44); [lia|].
      simpl. discriminate.
Qed.

(** C6, as stated, does not hold: ["-1"] is a valid input, and with a
    ['-'] put in front of it the parse fails. *)
Lemma Parse_minus_prefix_counterexample :
  Parse "-1" = (- BTC, None)
  /\ Parse ("-" ++ "-1") = (0, Some StrayMinus)
  /\ Parse ("-" ++ "-1") <> (Int64.neg (fst (Parse "-1")), None).
Proof.
  split; [vm_compute; reflexivity|]. split; [vm_compute; reflexivity|].
  intros H. vm_compute in H. discriminate H.
Qed.

(** C6, amended. For every input [X] that [Parse] accepts and that does
    not begin with a sign, [Parse ("-" ++ X)] succeeds with the negation
    of [Parse X]. *)
Theorem Parse_minus_prefix (X : string) :
  snd (Parse X) = None ->
  (forall c : ascii, String.get 0 X = Some c -> ~ is_sign c) ->
  Parse ("-" ++ X) = (Int64.neg (fst (Parse X)), None).
Proof.
  intros Hok Hhd. unfold Parse, rangeString in *.
  change (bytes ("-" ++ X)) with (45 :: bytes X).
  rewrite rangeFrom_ascii by lia.
  cbn [scan Z.eqb Pos.eqb]. change (0 + 1) with 1.
  change (mkState (value initState) (decimals initState) true
            (mul initState)) with (setNegative initState).
  apply (scan_negated X ("-" ++ X) (bytes X) (bytes_range X) 0 1 initState);
    try lia; try reflexivity; try assumption.
  intros _. destruct X as [|c X']; [exact I|].
  change (bytes (String c X')) with (byte_of c :: bytes X').
  destruct (signB (byte_of c)) eqn:Es; [|exact Es].
  apply signB_byte_of in Es. exfalso. exact (Hhd c eq_refl Es).
Qed.

Lemma Parse_minus_prefix_witness :
  Parse ("-" ++ "20.1") = (Int64.neg (fst (Parse "20.1")), None).
Proof.
  apply (Parse_minus_prefix "20.1").
  - reflexivity.
  - intros c H. injection H as <-. intros [H|H]; discriminate H.
Defined.

(** ** Decimal strings *)

Lemma app_nil_r (s : string) : s ++ EmptyString = s.
Proof. induction s; simpl; congruence. Qed.

Lemma app_assoc (s t u : string) : (s ++ t) ++ u = s ++ t ++ u.
Proof. induction s; simpl; congruence. Qed.

Lemma length_app (s t : string) :
  String.length (s ++ t) = (String.length s + String.length t)%nat.
Proof. induction s; simpl; congruence. Qed.

Lemma len_app (s t : string) : len (s ++ t) = len s + len t.
Proof. unfold len. rewrite length_app. lia. Qed.

Lemma length_zeros (n : nat) : String.length (zeros n) = n.
Proof. induction n; simpl; congruence. Qed.

Lemma zeros_snoc (n : nat) : zeros n ++ "0" = zeros (S n).
Proof.
  induction n as [|n IH]; [reflexivity|].
  change (String "0" (zeros n ++ "0") = String "0" (zeros (S n))).
  rewrite IH. reflexivity.
Qed.

Lemma all_digits_app (s t : string) :
  all_digits (s ++ t) <-> all_digits s /\ all_digits t.
Proof. induction s; simpl; tauto. Qed.

Lemma all_digits_zeros (n : nat) : all_digits (zeros n).
Proof. induction n; simpl; auto. Qed.

Lemma decValueFrom_app (s t : string) :
  forall acc : Z,
    decValueFrom acc (s ++ t) = decValueFrom (decValueFrom acc s) t.
Proof. induction s; simpl; auto. Qed.

Lemma decValueFrom_zeros (n : nat) :
  forall acc : Z, decValueFrom acc (zeros n) = acc * 10 ^ Z.of_nat n.
Proof.
  induction n as [|n IH]; intros acc.
  - simpl. lia.
  - cbn [zeros decValueFrom]. rewrite IH.
    change (byte_of "0") with 48.
    rewrite Nat2Z.inj_succ, Z.pow_succ_r by lia. lia.
Qed.

Lemma decValueFrom_shift (s : string) :
  forall acc : Z,
    decValueFrom acc s = acc * 10 ^ len s + decValue s.
Proof.
  unfold decValue, len.
  induction s as [|c s IH]; intros acc.
  - simpl. lia.
  - cbn [decValueFrom String.length].
    rewrite (IH (acc * 10 + (byte_of c - 48))), (IH (0 * 10 + _)).
    rewrite Nat2Z.inj_succ, Z.pow_succ_r by lia. lia.
Qed.

Lemma byte_of_digit_char (d : Z) :
  0 <= d < 10 -> byte_of (digit_char d) = 48 + d.
Proof.
  intros Hd. unfold byte_of, digit_char, ascii_of.
  rewrite N_ascii_embedding by lia. lia.
Qed.

(** [utoa_aux] writes the digits of [n] in front of [acc]: they denote
    [n], and there are at most [k] of them when [n < 10^k]. *)
Lemma utoa_aux_spec (f : nat) :
  forall (n : Z) (acc : string),
    0 <= n < 10 ^ Z.of_nat (S f) ->
    exists D : string,
      utoa_aux (S f) n acc = D ++ acc
      /\ all_digits D /\ decValue D = n /\ 1 <= len D
      /\ (forall k : Z, 1 <= k -> n < 10 ^ k -> len D <= k).
Proof.
  induction f as [|f IH]; intros n acc Hn.
  - change (10 ^ Z.of_nat 1) with 10 in Hn. cbn [utoa_aux].
    destruct (Z.ltb_spec n 10); [|lia].
    rewrite Z.mod_small by lia.
    exists (String (digit_char n) EmptyString). simpl.
    rewrite byte_of_digit_char by lia.
    repeat split.
    + unfold is_digit.
      destruct (Z.leb_spec 48 (48 + n)), (Z.leb_spec (48 + n) 57);
        try reflexivity; lia.
    + unfold decValue. simpl. rewrite byte_of_digit_char by lia. lia.
    + unfold len. simpl. lia.
    + intros k Hk _. unfold len. simpl. lia.
  - cbn [utoa_aux]. fold (utoa_aux (S f)).
    pose proof (Z.mod_pos_bound n 10 ltac:(lia)) as Hm.
    pose proof (Z.div_mod n 10 ltac:(lia)) as Hdm.
    destruct (Z.ltb_spec n 10) as [Hlt|Hge].
    + rewrite Z.mod_small by lia.
      exists (String (digit_char n) EmptyString). simpl.
      rewrite byte_of_digit_char by lia.
      repeat split.
      * unfold is_digit.
        destruct (Z.leb_spec 48 (48 + n)), (Z.leb_spec (48 + n) 57);
          try reflexivity; lia.
      * unfold decValue. simpl. rewrite byte_of_digit_char by lia. lia.
      * unfold len. simpl. lia.
      * intros k Hk _. unfold len. simpl. lia.
    + assert (Hq : 0 <= n / 10 < 10 ^ Z.of_nat (S f)).
      { split; [apply Z.div_pos; lia|].
        apply Z.div_lt_upper_bound; [lia|].
        rewrite (Nat2Z.inj_succ (S f)), Z.pow_succ_r in Hn by lia. lia. }
      destruct (IH (n / 10) (String (digit_char (n mod 10)) acc) Hq)
        as (D & HD & Hall & Hval & Hlen & Hk).
      exists (D ++ String (digit_char (n mod 10)) EmptyString).
      rewrite app_assoc. simpl. split; [exact HD|].
      split.
      { apply all_digits_app. split; [exact Hall|]. simpl.
        rewrite byte_of_digit_char by lia. split; [|exact I].
        unfold is_digit.
        destruct (Z.leb_spec 48 (48 + n mod 10)),
          (Z.leb_spec (48 + n mod 10) 57); try reflexivity; lia. }
      split.
      { unfold decValue in *. rewrite decValueFrom_app, Hval. simpl.
        rewrite byte_of_digit_char by lia. lia. }
      split.
      { rewrite len_app. unfold len at 2. simpl. lia. }
      intros k Hk1 Hnk. rewrite len_app. unfold len at 2. simpl.
      assert (Hk2 : 2 <= k).
      { destruct (Z.eq_dec k 1) as [->|]; [|lia].
        change (10 ^ 1) with 10 in Hnk. lia. }
      assert (Hd : len D <= k - 1).
      { apply Hk; [lia|].
        apply Z.div_lt_upper_bound; [lia|].
        replace k with (Z.succ (k - 1)) in Hnk by lia.
        rewrite Z.pow_succ_r in Hnk by lia. lia. }
      lia.
Qed.

Lemma utoa_spec (n : Z) :
  0 <= n ->
  all_digits (utoa n) /\ decValue (utoa n) = n /\ 1 <= len (utoa n)
  /\ (forall k : Z, 1 <= k -> n < 10 ^ k -> len (utoa n) <= k).
Proof.
  intros Hn. unfold utoa.
  assert (Hb : 0 <= n < 10 ^ Z.of_nat (S (Z.to_nat (Z.log2 n)))).
  { split; [assumption|].
    destruct (Z.eq_dec n 0) as [->|Hnz]; [reflexivity|].
    pose proof (Z.log2_nonneg n) as Hl.
    pose proof (Z.log2_spec n ltac:(lia)) as [_ Hs].
    rewrite Nat2Z.inj_succ, Z2Nat.id by lia.
    eapply Z.lt_le_trans; [exact Hs|].
    apply Z.pow_le_mono_l. lia. }
  destruct (utoa_aux_spec _ n EmptyString Hb) as (D & HD & H).
  rewrite HD, app_nil_r. exact H.
Qed.

Lemma decValue_zeros_app (n : nat) (s : string) :
  decValue (zeros n ++ s) = decValue s.
Proof.
  unfold decValue. rewrite decValueFrom_app, decValueFrom_zeros. reflexivity.
Qed.

(** The zero-padded rendering of a non-negative number below [10^width]
    is [width] digits long (one digit for [width = 0]) and denotes it. *)
Lemma sprintf_0d_spec (width n : Z) :
  0 <= width -> 0 <= n < 10 ^ width ->
  all_digits (sprintf_0d width n)
  /\ decValue (sprintf_0d width n) = n
  /\ len (sprintf_0d width n) = Z.max 1 width.
Proof.
  intros Hw Hn. unfold sprintf_0d.
  destruct (Z.ltb_spec n 0); [lia|].
  rewrite Z.abs_eq by lia.
  destruct (utoa_spec n ltac:(lia)) as (Hall & Hval & Hlen & Hk).
  split; [|split].
  - apply all_digits_app. split; [apply all_digits_zeros|exact Hall].
  - rewrite decValue_zeros_app. exact Hval.
  - rewrite len_app. unfold len at 1. rewrite length_zeros.
    destruct (Z.eq_dec width 0) as [->|Hnz].
    + change (10 ^ 0) with 1 in Hn.
      specialize (Hk 1 ltac:(lia)). change (10 ^ 1) with 10 in Hk. lia.
    + specialize (Hk width ltac:(lia) ltac:(lia)). lia.
Qed.

(** *** The trailing-zero loop *)

Lemma string_snoc (s : string) :
  s <> EmptyString ->
  exists (p : string) (c : ascii), s = p ++ String c EmptyString.
Proof.
  induction s as [|a s IH]; intros Hs; [contradiction|].
  destruct s as [|b s].
  - exists EmptyString, a. reflexivity.
  - destruct IH as (p & c & Hp); [discriminate|].
    exists (String a p), c. simpl. rewrite <- Hp. reflexivity.
Qed.

Lemma get_snoc (p : string) (c : ascii) (t : string) :
  String.get (String.length p) (p ++ String c t) = Some c.
Proof. induction p; simpl; auto. Qed.

Lemma substring_snoc (p t : string) :
  substring 0 (String.length p) (p ++ t) = p.
Proof.
  induction p as [|a p IH]; simpl.
  - destruct t; reflexivity.
  - rewrite IH. reflexivity.
Qed.

Lemma last_char_snoc (p : string) (c : ascii) :
  last_char (p ++ String c EmptyString) = Some c.
Proof.
  unfold last_char. rewrite length_app. simpl.
  replace (Nat.pred (String.length p + 1)) with (String.length p) by lia.
  apply get_snoc.
Qed.

(** The loop removes zeros from the right and nothing else; it stops at
    a single byte or at a last byte that is not ['0']. *)
Lemma stripLoop_spec (i : nat) :
  forall s : string,
    String.length s = S i ->
    exists m : nat,
      s = stripLoop i s ++ zeros m
      /\ 1 <= len (stripLoop i s)
      /\ (len (stripLoop i s) = 1
          \/ last_char (stripLoop i s) <> Some "0"%char).
Proof.
  induction i as [|i IH]; intros s Hs.
  - exists 0%nat. simpl. rewrite app_nil_r. unfold len. rewrite Hs.
    split; [reflexivity|]. split; [lia|]. left. reflexivity.
  - destruct (string_snoc s) as (p & c & ->).
    { intros ->. discriminate Hs. }
    rewrite length_app in Hs. simpl in Hs.
    assert (Hp : String.length p = S i) by lia.
    cbn [stripLoop]. rewrite <- Hp, get_snoc.
    destruct (Ascii.eqb_spec c "0"%char) as [->|Hc].
    + rewrite substring_snoc.
      destruct (IH p Hp) as (m & Hm & Hl & Hlast).
      exists (S m). split; [|split; assumption].
      rewrite <- zeros_snoc, <- app_assoc, <- Hm. reflexivity.
    + exists 0%nat. simpl. rewrite app_nil_r.
      split; [reflexivity|]. split.
      * rewrite len_app. unfold len. simpl. lia.
      * right. rewrite last_char_snoc. congruence.
Qed.

(** ** SplitString *)

(** C8, as stated, does not hold: for 10.0012 BTC at the BTC boundary the
    code pads the remainder 120000 to eight digits and returns ["0012"];
    the width of the claim is zero there and gives ["12"]. *)
Lemma SplitString_width_counterexample :
  snd (SplitString 1000120000 BTC) = "0012"
  /\ log10 BTC - log10 BTC = 0
  /\ rightStr_claimed 1000120000 BTC = "12"
  /\ snd (SplitString 1000120000 BTC) <> rightStr_claimed 1000120000 BTC.
Proof.
  split; [vm_compute; reflexivity|]. split; [reflexivity|].
  split; [vm_compute; reflexivity|].
  intros H. vm_compute in H. discriminate H.
Qed.

(** The float computation of the width is exact at the powers of ten,
    [10^15] apart. *)
Lemma log10_pow10 (k : Z) :
  0 <= k <= 18 -> k <> 15 -> log10 (10 ^ k) = k.
Proof.
  intros Hk Hne.
  assert (H : k = 0 \/ k = 1 \/ k = 2 \/ k = 3 \/ k = 4 \/ k = 5 \/ k = 6
              \/ k = 7 \/ k = 8 \/ k = 9 \/ k = 10 \/ k = 11 \/ k = 12
              \/ k = 13 \/ k = 14 \/ k = 16 \/ k = 17 \/ k = 18)
    by lia.
  repeat (destruct H as [->|H]; [vm_compute; reflexivity|]).
  subst k. vm_compute. reflexivity.
Qed.

Lemma log10_pow10_15 : log10 (10 ^ 15) = 14.
Proof. vm_compute. reflexivity. Qed.

Lemma log10_nonpositive :
  log10 0 = Int64.min_int /\ log10 (-1) = Int64.min_int.
Proof. split; vm_compute; reflexivity. Qed.

(** For the widths the powers of ten give, the format is ["%0<width>d"]. *)
Lemma sprintf_width_small (w n : Z) :
  0 <= w <= 18 -> sprintf_width w n = sprintf_0d w n.
Proof.
  intros Hw. unfold sprintf_width.
  assert (Hp : parsenum (utoa (Z.abs w)) 0 = Some w).
  { assert (H : w = 0 \/ w = 1 \/ w = 2 \/ w = 3 \/ w = 4 \/ w = 5
                \/ w = 6 \/ w = 7 \/ w = 8 \/ w = 9 \/ w = 10 \/ w = 11
                \/ w = 12 \/ w = 13 \/ w = 14 \/ w = 15 \/ w = 16
                \/ w = 17 \/ w = 18) by lia.
    repeat (destruct H as [->|H]; [vm_compute; reflexivity|]).
    subst w. vm_compute. reflexivity. }
  rewrite Hp. destruct (Z.ltb_spec w 0); [lia|reflexivity].
Qed.

(** [SplitString] at a power of ten: the quotient in decimal, and the
    remainder padded to [k] digits with its right-hand zeros removed. *)
Lemma SplitString_pow10 (a : Amount) (k : Z) :
  Int64.in_range a -> 0 <= k <= 18 -> k <> 15 ->
  let right := Z.abs (Z.rem a (10 ^ k)) in
  let padded := sprintf_0d k right in
  exists (rightStr : string) (m : nat),
    SplitString a (10 ^ k) = (sprintf_d (Z.quot a (10 ^ k)), rightStr)
    /\ padded = rightStr ++ zeros m
    /\ all_digits padded
    /\ decValue padded = right
    /\ len padded = Z.max 1 k
    /\ 1 <= len rightStr
    /\ (len rightStr = 1 \/ last_char rightStr <> Some "0"%char).
Proof.
  intros Ha Hk Hne right padded.
  pose proof (pow10_bounds k Hk) as Hu.
  assert (Hb : 0 <= right < 10 ^ k).
  { unfold right.
    pose proof (Z.rem_bound_abs a (10 ^ k) ltac:(lia)). lia. }
  destruct (sprintf_0d_spec k right ltac:(lia) Hb) as (Hall & Hval & Hlen).
  assert (Hlen' : String.length padded = S (Nat.pred (String.length padded))).
  { unfold len in Hlen. fold padded in Hlen. lia. }
  destruct (stripLoop_spec _ _ Hlen') as (m & Hm & Hl & Hlast).
  exists (stripLoop (Nat.pred (String.length padded)) padded), m.
  split.
  - unfold SplitString. rewrite (split_pow10 a k Ha Hk).
    rewrite (log10_pow10 k Hk Hne), (sprintf_width_small k _ Hk).
    reflexivity.
  - repeat split; assumption.
Qed.

(** C8, amended. For an [Amount] [a] and a unit [10^k], k from 0 to 18
    and other than 15, the right string of [SplitString] comes from the
    remainder [|a rem 10^k|] written with [log10(unit) = k] digits, zeros
    added on the left (one digit when [k = 0]), by removing zeros from
    the right end; it is never empty, and it ends in ['0'] only when it
    is one byte long. *)
Theorem SplitString_right (a : Amount) (k : Z) :
  Int64.in_range a -> 0 <= k <= 18 -> k <> 15 ->
  let right := snd (split a (10 ^ k)) in
  let rightStr := snd (SplitString a (10 ^ k)) in
  exists (padded : string) (m : nat),
    padded = rightStr ++ zeros m
    /\ padded = sprintf_0d (log10 (10 ^ k)) right
    /\ log10 (10 ^ k) = k
    /\ right = Z.abs (Z.rem a (10 ^ k))
    /\ all_digits padded
    /\ decValue padded = right
    /\ len padded = Z.max 1 k
    /\ 1 <= len rightStr
    /\ (len rightStr = 1 \/ last_char rightStr <> Some "0"%char).
Proof.
  intros Ha Hk Hne right rightStr.
  destruct (SplitString_pow10 a k Ha Hk Hne)
    as (rs & m & HS & Hm & Hall & Hval & Hlen & Hl & Hlast).
  unfold right, rightStr.
  rewrite HS, (split_pow10 a k Ha Hk), (log10_pow10 k Hk Hne). cbn [snd].
  exists (sprintf_0d k (Z.abs (Z.rem a (10 ^ k)))), m.
  repeat split; assumption.
Qed.

Lemma SplitString_right_witness :
  exists (padded : string) (m : nat),
    padded = snd (SplitString 1000120000 (10 ^ 8)) ++ zeros m
    /\ padded = sprintf_0d (log10 (10 ^ 8)) (snd (split 1000120000 (10 ^ 8)))
    /\ log10 (10 ^ 8) = 8
    /\ snd (split 1000120000 (10 ^ 8)) = Z.abs (Z.rem 1000120000 (10 ^ 8))
    /\ all_digits padded
    /\ decValue padded = snd (split 1000120000 (10 ^ 8))
    /\ len padded = Z.max 1 8
    /\ 1 <= len (snd (SplitString 1000120000 (10 ^ 8)))
    /\ (len (snd (SplitString 1000120000 (10 ^ 8))) = 1
        \/ last_char (snd (SplitString 1000120000 (10 ^ 8)))
           <> Some "0"%char).
Proof.
  apply (SplitString_right 1000120000 8).
  - unfold Int64.in_range, Int64.min_int, Int64.max_int. lia.
  - lia.
  - lia.
Defined.

(** ** UnmarshalJSON and quoted input *)

Lemma get_last_snoc (p : string) (c : ascii) :
  String.get (String.length (p ++ String c EmptyString) - 1)
    (p ++ String c EmptyString) = Some c.
Proof.
  rewrite length_app. simpl.
  replace (String.length p + 1 - 1)%nat with (String.length p) by lia.
  apply get_snoc.
Qed.

(** On a quoted input the slice [in[1 : len(in)-2]] drops the opening
    quote, the closing quote and the byte before the closing quote. *)
Lemma jsonPayload_quoted (s : string) (c : ascii) :
  jsonPayload (quoted (s ++ String c EmptyString)) = s.
Proof.
  unfold jsonPayload, quoted.
  set (body := s ++ String c EmptyString).
  assert (Hlen : String.length (String quote (body ++ String quote EmptyString))
                 = (String.length s + 3)%nat).
  { unfold body. simpl. rewrite !length_app. simpl. lia. }
  assert (Hlast : String.get
                    (String.length
                       (String quote (body ++ String quote EmptyString)) - 1)
                    (String quote (body ++ String quote EmptyString))
                  = Some quote).
  { change (String quote (body ++ String quote EmptyString))
      with ((String quote body) ++ String quote EmptyString).
    apply get_last_snoc. }
  rewrite Hlast, Hlen.
  destruct (Nat.ltb_spec 2 (String.length s + 3)) as [_|]; [|lia].
  cbn [String.get andb]. rewrite Ascii.eqb_refl.
  replace (String.length s + 3 - 2 - 1)%nat with (String.length s) by lia.
  unfold body. rewrite app_assoc.
  cbn [substring].
  apply substring_snoc.
Qed.

(** C4: the code at the input ["1.5"] (with its quotes).  The slice keeps
    [1.] so the call assigns 1 BTC, where [UnmarshalText] on the interior
    [1.5] assigns 1.5 BTC; in general the byte before the closing quote
    is lost with the quotes. *)
Theorem UnmarshalJSON_quoted_slice
  (float64 : Type) (jsonUnmarshalFloat : string -> option float64)
  (sprintf_08f : float64 -> string) (a : Amount) :
  jsonPayload (quoted "1.5") = "1."
  /\ UnmarshalJSON float64 jsonUnmarshalFloat sprintf_08f a (quoted "1.5")
     = (100000000, None)
  /\ UnmarshalText a "1.5" = (150000000, None)
  /\ (forall (s : string) (c : ascii),
        jsonPayload (quoted (s ++ String c EmptyString)) = s).
Proof.
  split; [vm_compute; reflexivity|].
  split.
  { unfold UnmarshalJSON.
    replace (jsonPayload (quoted "1.5")) with "1." by (vm_compute; reflexivity).
    replace (UnmarshalText a "1.") with (100000000, @None error)
      by (vm_compute; reflexivity).
    reflexivity. }
  split; [vm_compute; reflexivity|].
  exact jsonPayload_quoted.
Qed.

(** ** Round trip through Format *)

(** C1: the code at the input ["-0.5"].  The parsed amount is -0.5 BTC;
    [split] gives the quotient 0 and the magnitude of the remainder, so
    [Format] at the BTC boundary (eight decimals, the boundary of
    [MarshalText]) prints ["0.5"], which parses to +0.5 BTC.  At the
    [Satoshi] boundary [Format] prints the count of satoshis, which
    [Parse] reads as a count of BTC. *)
Theorem Format_roundtrip_sign_lost :
  Parse "-0.5" = (-50000000, None)
  /\ split (-50000000) BTC = (0, 50000000)
  /\ Format (-50000000) BTC = "0.5"
  /\ MarshalText (-50000000) = ("0.5", None)
  /\ Parse (Format (-50000000) BTC) = (50000000, None)
  /\ Parse (Format (fst (Parse "-0.5")) BTC) <> Parse "-0.5"
  /\ Format (-50000000) Satoshi = "-50000000"
  /\ Parse (Format (fst (Parse "-0.5")) Satoshi) <> Parse "-0.5".
Proof.
  repeat split; try (vm_compute; reflexivity);
    intros H; vm_compute in H; discriminate H.
Qed.

(** ** Where the round trip does hold *)

#[local] Instance eqm64_equiv : Equivalence eqm64.
Proof.
  split.
  - intros x. constructor. reflexivity.
  - intros x y [H]. constructor. congruence.
  - intros x y z [H1] [H2]. constructor. congruence.
Qed.

#[local] Instance eqm64_add : Proper (eqm64 ==> eqm64 ==> eqm64) Z.add.
Proof.
  intros x x' [Hx] y y' [Hy]. constructor.
  rewrite (Z.add_mod x y), (Z.add_mod x' y'), Hx, Hy
    by (unfold Int64.modulus; lia).
  reflexivity.
Qed.

#[local] Instance eqm64_mul : Proper (eqm64 ==> eqm64 ==> eqm64) Z.mul.
Proof.
  intros x x' [Hx] y y' [Hy]. constructor.
  rewrite (Z.mul_mod x y), (Z.mul_mod x' y'), Hx, Hy
    by (unfold Int64.modulus; lia).
  reflexivity.
Qed.

#[local] Instance eqm64_opp : Proper (eqm64 ==> eqm64) Z.opp.
Proof.
  intros x x' Hx.
  replace (- x) with (-1 * x) by lia. replace (- x') with (-1 * x') by lia.
  rewrite Hx. reflexivity.
Qed.

Lemma wrap_eqm (x : Z) : eqm64 (Int64.wrap x) x.
Proof.
  constructor. unfold Int64.wrap, Int64.modulus.
  rewrite Zminus_mod_idemp_l. f_equal. lia.
Qed.

Lemma eqm_wrap (x y : Z) : eqm64 x y -> Int64.wrap x = Int64.wrap y.
Proof.
  intros [H]. unfold Int64.wrap.
  rewrite <- (Zplus_mod_idemp_l x), <- (Zplus_mod_idemp_l y), H.
  reflexivity.
Qed.

Lemma bytes_app (s t : string) : bytes (s ++ t) = (bytes s ++ bytes t)%list.
Proof.
  unfold bytes. induction s as [|c s IH]; simpl; [reflexivity|].
  rewrite IH. reflexivity.
Qed.

Lemma is_digit_bounds (b : Z) : is_digit b = true -> 48 <= b <= 57.
Proof.
  unfold is_digit. intros H. apply andb_true_iff in H.
  destruct H as [H1 H2]. apply Z.leb_le in H1. apply Z.leb_le in H2. lia.
Qed.

(** One turn of the loop on a digit. *)
Lemma scan_digit (input : string) (pos b : Z) (t : list Z)
  (st : parseState) :
  is_digit b = true ->
  scan input (rangeFrom pos 0 (b :: t)) st
  = scan input (rangeFrom (pos + 1) 0 t) (add st (b - 48)).
Proof.
  intros Hd. pose proof (is_digit_bounds b Hd) as Hb.
  rewrite rangeFrom_ascii by lia. cbn [scan].
  destruct (Z.eqb_spec b 43); [lia|].
  destruct (Z.eqb_spec b 45); [lia|].
  rewrite Hd. unfold runeVal, Int64.sub.
  rewrite wrap_id
    by (unfold Int64.in_range, Int64.min_int, Int64.max_int; lia).
  reflexivity.
Qed.

(** The digits before the decimal marker: each one multiplies the value
    by ten and adds a whole number of BTC. *)
Lemma scan_int_digits (input : string) (D : string) :
  all_digits D ->
  forall (rest : list Z) (pos : Z) (st : parseState),
    Int64.in_range (value st) -> decimals st = false ->
    scan input (rangeFrom pos 0 (bytes D ++ rest)) st
    = scan input (rangeFrom (pos + len D) 0 rest)
        (mkState (Int64.wrap (value st * 10 ^ len D + decValue D * BTC))
           false (negative st) (mul st)).
Proof.
  induction D as [|c D IH]; intros Hall rest pos st Hv Hdec.
  - change (bytes EmptyString ++ rest)%list with rest.
    change (len EmptyString) with 0. change (decValue EmptyString) with 0.
    rewrite Z.add_0_r.
    replace (value st * 10 ^ 0 + 0 * BTC) with (value st) by lia.
    rewrite (wrap_id _ Hv). destruct st; simpl in *; subst; reflexivity.
  - destruct Hall as [Hc Hall].
    change (bytes (String c D) ++ rest)%list
      with (byte_of c :: (bytes D ++ rest))%list.
    rewrite (scan_digit input pos (byte_of c) _ st Hc).
    assert (Hadd : add st (byte_of c - 48)
                   = mkState
                       (Int64.add (Int64.mul (value st) 10)
                          (Int64.mul (byte_of c - 48) BTC))
                       false (negative st) (mul st)).
    { unfold add. rewrite Hdec. reflexivity. }
    rewrite Hadd.
    rewrite (IH Hall rest (pos + 1) _)
      by (try reflexivity; cbn [value]; apply wrap_in_range).
    cbn [value negative mul].
    assert (Hlen : len (String c D) = len D + 1).
    { unfold len. cbn [String.length]. lia. }
    rewrite Hlen.
    replace (pos + 1 + len D) with (pos + (len D + 1)) by lia.
    f_equal. f_equal.
    apply eqm_wrap. unfold Int64.add, Int64.mul. rewrite !wrap_eqm.
    unfold decValue at 2. cbn [decValueFrom].
    rewrite decValueFrom_shift.
    assert (Hl : 0 <= len D) by (unfold len; lia).
    rewrite Z.pow_add_r by lia.
    replace (value st * (10 ^ len D * 10 ^ 1)
             + ((0 * 10 + (byte_of c - 48)) * 10 ^ len D + decValue D) * BTC)
      with ((value st * 10 + (byte_of c - 48) * BTC) * 10 ^ len D
            + decValue D * BTC) by ring.
    reflexivity.
Qed.

Lemma pow10_in_range (j : Z) :
  0 <= j <= 18 -> Int64.in_range (10 ^ j).
Proof.
  intros Hj. pose proof (pow10_bounds j Hj).
  unfold Int64.in_range, Int64.min_int, Int64.max_int. lia.
Qed.

(** The digits after the decimal marker, while the multiplier lasts:
    with [mul = 10^j] and at most [j + 1] digits to read. *)
Lemma scan_frac_digits (input : string) (F : string) :
  all_digits F ->
  forall (rest : list Z) (pos : Z) (st : parseState) (j : Z),
    Int64.in_range (value st) -> decimals st = true ->
    mul st = 10 ^ j -> 0 <= j <= 18 -> len F <= j + 1 ->
    exists m' : Amount,
      scan input (rangeFrom pos 0 (bytes F ++ rest)) st
      = scan input (rangeFrom (pos + len F) 0 rest)
          (mkState
             (Int64.wrap (value st + decValue F * 10 ^ (j + 1 - len F)))
             true (negative st) m').
Proof.
  induction F as [|c F IH]; intros Hall rest pos st j Hv Hdec Hmul Hj Hlen.
  - exists (mul st).
    change (bytes EmptyString ++ rest)%list with rest.
    change (len EmptyString) with 0. change (decValue EmptyString) with 0.
    rewrite Z.add_0_r.
    replace (value st + 0 * 10 ^ (j + 1 - 0)) with (value st) by lia.
    rewrite (wrap_id _ Hv). destruct st; simpl in *; subst; reflexivity.
  - destruct Hall as [Hc Hall].
    change (bytes (String c F) ++ rest)%list
      with (byte_of c :: (bytes F ++ rest))%list.
    rewrite (scan_digit input pos (byte_of c) _ st Hc).
    assert (Hadd : add st (byte_of c - 48)
                   = mkState
                       (Int64.add (value st)
                          (Int64.mul (byte_of c - 48) (10 ^ j)))
                       true (negative st) (Int64.quo (10 ^ j) 10)).
    { unfold add. rewrite Hdec, Hmul. reflexivity. }
    rewrite Hadd.
    assert (Hlc : len (String c F) = len F + 1).
    { unfold len. cbn [String.length]. lia. }
    assert (Hl : 0 <= len F) by (unfold len; lia).
    rewrite Hlc in *.
    destruct (Z.eq_dec (len F) 0) as [Hz|Hnz].
    + assert (F = EmptyString) as ->.
      { destruct F; [reflexivity|]. unfold len in Hz. simpl in Hz. lia. }
      exists (Int64.quo (10 ^ j) 10).
      change (bytes EmptyString ++ rest)%list with rest.
      change (len EmptyString) with 0.
      replace (pos + (0 + 1)) with (pos + 1) by lia.
      f_equal. f_equal.
      apply eqm_wrap. unfold Int64.add, Int64.mul. rewrite !wrap_eqm.
      unfold decValue. cbn [decValueFrom].
      replace (j + 1 - (0 + 1)) with j by lia.
      replace (0 * 10 + (byte_of c - 48)) with (byte_of c - 48) by lia.
      reflexivity.
    + assert (Hq : Int64.quo (10 ^ j) 10 = 10 ^ (j - 1)).
      { unfold Int64.quo.
        replace (10 ^ j) with (10 ^ (j - 1) * 10).
        - rewrite Z.quot_mul by lia.
          apply wrap_id, pow10_in_range. lia.
        - rewrite Z.mul_comm, <- (Z.pow_succ_r 10 (j - 1)) by lia.
          f_equal. lia. }
      destruct (IH Hall rest (pos + 1)
                  (mkState
                     (Int64.add (value st)
                        (Int64.mul (byte_of c - 48) (10 ^ j)))
                     true (negative st) (Int64.quo (10 ^ j) 10))
                  (j - 1)) as (m' & Hm');
        try (cbn [value decimals mul]; first
               [ apply wrap_in_range | reflexivity | exact Hq | lia ]).
      exists m'. rewrite Hm'. cbn [value negative].
      replace (pos + 1 + len F) with (pos + (len F + 1)) by lia.
      f_equal. f_equal.
      apply eqm_wrap. unfold Int64.add, Int64.mul. rewrite !wrap_eqm.
      unfold decValue at 2. cbn [decValueFrom].
      rewrite decValueFrom_shift.
      replace (j - 1 + 1 - len F) with (j - len F) by lia.
      replace (j + 1 - (len F + 1)) with (j - len F) by lia.
      replace (10 ^ j) with (10 ^ len F * 10 ^ (j - len F)).
      * replace (0 * 10 + (byte_of c - 48)) with (byte_of c - 48) by lia.
        replace ((((byte_of c - 48) * 10 ^ len F + decValue F)
                  * 10 ^ (j - len F)))
          with ((byte_of c - 48) * (10 ^ len F * 10 ^ (j - len F))
                + decValue F * 10 ^ (j - len F)) by ring.
        rewrite Z.add_assoc. reflexivity.
      * rewrite <- Z.pow_add_r by lia. f_equal. lia.
Qed.

Lemma scan_point (input : string) (pos : Z) (t : list Z) (st : parseState) :
  decimals st = false ->
  scan input (rangeFrom pos 0 (46 :: t)) st
  = scan input (rangeFrom (pos + 1) 0 t)
      (mkState (value st) true (negative st) (mul st)).
Proof.
  intros Hdec. rewrite rangeFrom_ascii by lia. cbn [scan].
  change (46 =? 43) with false. change (46 =? 45) with false.
  change (is_digit 46) with false. change (46 =? 46) with true.
  cbn [orb]. rewrite Hdec. reflexivity.
Qed.

Lemma scan_minus (input : string) (t : list Z) (st : parseState) :
  scan input (rangeFrom 0 0 (45 :: t)) st
  = scan input (rangeFrom 1 0 t)
      (mkState (value st) (decimals st) true (mul st)).
Proof.
  rewrite rangeFrom_ascii by lia. reflexivity.
Qed.

Lemma sprintf_d_nonneg (l : Z) : 0 <= l -> sprintf_d l = utoa l.
Proof.
  intros Hl. unfold sprintf_d, sprintf_0d.
  destruct (Z.ltb_spec l 0); [lia|].
  rewrite Z.abs_eq by lia.
  destruct (utoa_spec l Hl) as (_ & _ & Hlen & _).
  replace (Z.to_nat (0 - len (utoa l))) with 0%nat by lia.
  reflexivity.
Qed.

Lemma sprintf_d_neg (l : Z) :
  l < 0 -> sprintf_d l = String "-"%char (utoa (- l)).
Proof.
  intros Hl. unfold sprintf_d, sprintf_0d.
  destruct (Z.ltb_spec l 0); [|lia].
  rewrite Z.abs_neq by lia.
  destruct (utoa_spec (- l) ltac:(lia)) as (_ & _ & Hlen & _).
  replace (Z.to_nat (0 - 1 - len (utoa (- l)))) with 0%nat by lia.
  reflexivity.
Qed.

(** The text [Format] writes after the sign: whole digits [D], then
    nothing when the right string is ["0"], else a point and the right
    string, whose zero-padded form [padded] holds eight digits. *)
Lemma scan_number (input : string) (D rs padded : string) (m : nat)
  (r : Z) (n : bool) (pos : Z) :
  all_digits D ->
  padded = rs ++ zeros m -> all_digits padded -> decValue padded = r ->
  len padded = 8 ->
  scan input
    (rangeFrom pos 0
       (bytes (D ++ (if String.eqb rs "0" then EmptyString else "." ++ rs))))
    (mkState 0 false n 10000000)
  = (if n then Int64.neg (Int64.wrap (decValue D * BTC + r))
     else Int64.wrap (decValue D * BTC + r), None).
Proof.
  intros HD Hpad Hall Hval Hlen.
  rewrite bytes_app.
  rewrite (scan_int_digits input D HD)
    by (try reflexivity; cbn [value];
        unfold Int64.in_range, Int64.min_int, Int64.max_int; lia).
  cbn [value negative mul].
  assert (Hr : r = decValue rs * 10 ^ Z.of_nat m).
  { rewrite <- Hval, Hpad. unfold decValue.
    rewrite decValueFrom_app, decValueFrom_zeros. reflexivity. }
  assert (Hm : len rs + Z.of_nat m = 8).
  { rewrite <- Hlen, Hpad, len_app. unfold len at 3.
    rewrite length_zeros. reflexivity. }
  destruct (String.eqb_spec rs "0") as [->|Hne].
  - change (bytes EmptyString) with (@nil Z).
    cbn [rangeFrom scan negative value].
    change (decValue "0") with 0 in Hr.
    replace r with 0 by lia.
    replace (0 * 10 ^ len D + decValue D * BTC)
      with (decValue D * BTC + 0) by lia.
    destruct n; reflexivity.
  - change (bytes ("." ++ rs)) with (46 :: bytes rs).
    rewrite scan_point by reflexivity.
    cbn [value negative mul].
    assert (Hrs : all_digits rs).
    { rewrite Hpad in Hall. apply all_digits_app in Hall. tauto. }
    rewrite <- (List.app_nil_r (bytes rs)).
    destruct (scan_frac_digits input rs Hrs [] (pos + len D + 1)
                (mkState (Int64.wrap (0 * 10 ^ len D + decValue D * BTC))
                   true n 10000000) 7) as (m' & Hm');
      try (cbn [value decimals mul]; first
             [ apply wrap_in_range | reflexivity | lia ]).
    rewrite Hm'. cbn [rangeFrom scan negative value].
    replace (7 + 1 - len rs) with (Z.of_nat m) by lia.
    assert (HV : Int64.wrap
                   (Int64.wrap (0 * 10 ^ len D + decValue D * BTC)
                    + decValue rs * 10 ^ Z.of_nat m)
                 = Int64.wrap (decValue D * BTC + r)).
    { apply eqm_wrap. rewrite wrap_eqm, Hr.
      replace (0 * 10 ^ len D + decValue D * BTC) with (decValue D * BTC)
        by lia.
      reflexivity. }
    rewrite HV. destruct n; reflexivity.
Qed.

(** X6. The round trip on the amounts that keep their sign in print: for
    an [Amount] that is not strictly between -1 BTC and 0, parsing what
    [Format] writes at the BTC boundary gives the amount back. *)
Theorem Format_roundtrip (a : Amount) :
  Int64.in_range a -> 0 <= a \/ a <= - BTC ->
  Parse (Format a BTC) = (a, None).
Proof.
  intros Ha Hsign.
  assert (HB : BTC = 10 ^ 8) by reflexivity.
  destruct (SplitString_pow10 a 8 Ha ltac:(lia) ltac:(lia))
    as (rs & m & HS & Hpad & Hall & Hval & Hlen & _ & _).
  rewrite <- HB in HS, Hval, Hpad, Hall, Hlen.
  change (Z.max 1 8) with 8 in Hlen.
  assert (HF : Format a BTC
               = sprintf_d (Z.quot a BTC)
                 ++ (if String.eqb rs "0" then EmptyString else "." ++ rs)).
  { unfold Format. rewrite HS.
    destruct (String.eqb rs "0"); [rewrite app_nil_r|]; reflexivity. }
  rewrite HF. unfold Parse, rangeString.
  change initState with (mkState 0 false false 10000000).
  pose proof (Z.quot_rem' a BTC) as Hqr.
  assert (HBpos : 0 < BTC) by reflexivity.
  destruct Hsign as [Hp|Hn].
  - pose proof (Z.quot_pos a BTC Hp HBpos) as Hq.
    destruct (rem_pos_facts a BTC Hp HBpos) as [Hr _].
    rewrite (sprintf_d_nonneg _ Hq).
    destruct (utoa_spec _ Hq) as (HD & HDv & _).
    rewrite (scan_number _ (utoa (Z.quot a BTC)) rs _ m _ false 0
               HD Hpad Hall Hval Hlen).
    rewrite HDv. apply (f_equal (fun v : Amount => (v, @None error))).
    transitivity (Int64.wrap a); [f_equal; lia|apply wrap_id; exact Ha].
  - assert (Hq : Z.quot a BTC < 0).
    { destruct (rem_neg_facts a BTC ltac:(lia) HBpos) as [_ Hr]. nia. }
    destruct (rem_neg_facts a BTC ltac:(lia) HBpos) as [Hr _].
    rewrite (sprintf_d_neg _ Hq).
    destruct (utoa_spec (- Z.quot a BTC) ltac:(lia)) as (HD & HDv & _).
    change (bytes (String "-" (utoa (- Z.quot a BTC)) ++ ?t))
      with (45 :: bytes (utoa (- Z.quot a BTC) ++ t)).
    cbn [append]. change (bytes (String "-" ?t)) with (45 :: bytes t).
    rewrite scan_minus. cbn [value decimals mul].
    rewrite (scan_number _ (utoa (- Z.quot a BTC)) rs _ m _ true 1
               HD Hpad Hall Hval Hlen).
    rewrite HDv. apply (f_equal (fun v : Amount => (v, @None error))).
    transitivity (Int64.wrap a); [|apply wrap_id; exact Ha].
    unfold Int64.neg. apply eqm_wrap. rewrite wrap_eqm.
    replace (- (- Z.quot a BTC * BTC + Z.abs (Z.rem a BTC))) with a by lia.
    reflexivity.
Qed.

Lemma Format_roundtrip_witness :
  Parse (Format (-150000000) BTC) = (-150000000, None).
Proof.
  apply (Format_roundtrip (-150000000)).
  - unfold Int64.in_range, Int64.min_int, Int64.max_int. lia.
  - right. unfold BTC, MilliBTC, MicroBTC, Satoshi. lia.
Defined.

(** * Further properties of the code *)

(** ** Parse: value, errors, prefixes *)

(** X1. Whenever [Parse] returns an error, the [Amount] it returns with
    it is zero. *)
Theorem Parse_error_returns_zero (s : string) :
  snd (Parse s) <> None -> fst (Parse s) = 0.
Proof. apply scan_error_value. Qed.

Lemma Parse_error_returns_zero_witness : fst (Parse "12x") = 0.
Proof.
  apply (Parse_error_returns_zero "12x"). discriminate.
Defined.

(** One turn of the loop on a decimal marker, ['.'] or [',']. *)
Lemma scan_sep (input : string) (pos b : Z) (t : list Z)
  (st : parseState) :
  pointB b = true -> decimals st = false ->
  scan input (rangeFrom pos 0 (b :: t)) st
  = scan input (rangeFrom (pos + 1) 0 t)
      (mkState (value st) true (negative st) (mul st)).
Proof.
  intros Hb Hdec. unfold pointB in Hb. apply orb_true_iff in Hb.
  assert (E : b = 46 \/ b = 44).
  { destruct Hb as [H|H]; apply Z.eqb_eq in H; lia. }
  destruct E as [->| ->].
  - apply scan_point. exact Hdec.
  - rewrite rangeFrom_ascii by lia. cbn [scan].
    change (44 =? 43) with false. change (44 =? 45) with false.
    change (is_digit 44) with false. change (44 =? 46) with false.
    change (44 =? 44) with true. cbn [orb]. rewrite Hdec. reflexivity.
Qed.

(** Whole digits alone, from the state [Parse] starts in. *)
Lemma scan_integer (input : string) (D : string) (n : bool) (pos : Z) :
  all_digits D ->
  scan input (rangeFrom pos 0 (bytes D)) (mkState 0 false n 10000000)
  = (signed n (Int64.wrap (decValue D * BTC)), None).
Proof.
  intros HD.
  rewrite <- (List.app_nil_r (bytes D)).
  rewrite (scan_int_digits input D HD)
    by (try reflexivity; cbn [value];
        unfold Int64.in_range, Int64.min_int, Int64.max_int; lia).
  cbn [rangeFrom scan negative value].
  replace (0 * 10 ^ len D + decValue D * BTC) with (decValue D * BTC) by lia.
  unfold signed. destruct n; reflexivity.
Qed.

(** Whole digits, a decimal marker and up to eight fraction digits. *)
Lemma scan_decimal (input : string) (D F : string) (sep : ascii)
  (n : bool) (pos : Z) :
  is_point sep -> all_digits D -> all_digits F -> len F <= 8 ->
  scan input (rangeFrom pos 0 (bytes (D ++ String sep F)))
    (mkState 0 false n 10000000)
  = (signed n
       (Int64.wrap (decValue D * BTC + decValue F * 10 ^ (8 - len F))),
     None).
Proof.
  intros Hsep HD HF Hlen.
  rewrite bytes_app.
  rewrite (scan_int_digits input D HD)
    by (try reflexivity; cbn [value];
        unfold Int64.in_range, Int64.min_int, Int64.max_int; lia).
  cbn [value negative mul].
  change (bytes (String sep F)) with (byte_of sep :: bytes F).
  rewrite scan_sep by (try reflexivity; apply pointB_byte_of; exact Hsep).
  cbn [value negative mul].
  rewrite <- (List.app_nil_r (bytes F)).
  destruct (scan_frac_digits input F HF [] (pos + len D + 1)
              (mkState (Int64.wrap (0 * 10 ^ len D + decValue D * BTC))
                 true n 10000000) 7) as (m' & Hm');
    try (cbn [value decimals mul]; first
           [ apply wrap_in_range | reflexivity | lia ]).
  rewrite Hm'. cbn [rangeFrom scan negative value].
  replace (7 + 1 - len F) with (8 - len F) by lia.
  assert (HV : Int64.wrap
                 (Int64.wrap (0 * 10 ^ len D + decValue D * BTC)
                  + decValue F * 10 ^ (8 - len F))
               = Int64.wrap
                   (decValue D * BTC + decValue F * 10 ^ (8 - len F))).
  { apply eqm_wrap. rewrite wrap_eqm.
    replace (0 * 10 ^ len D + decValue D * BTC) with (decValue D * BTC)
      by lia.
    reflexivity. }
  rewrite HV. unfold signed. destruct n; reflexivity.
Qed.

Lemma Parse_signStr (neg : bool) (t : string) :
  Parse (signStr neg ++ t)
  = scan (signStr neg ++ t)
      (rangeFrom (if neg then 1 else 0) 0 (bytes t))
      (mkState 0 false neg 10000000).
Proof.
  unfold Parse, rangeString. destruct neg.
  - change (bytes (signStr true ++ t)) with (45 :: bytes t).
    rewrite scan_minus. reflexivity.
  - reflexivity.
Qed.

(** X2. What [Parse] computes on a decimal number: for an optional
    ['-'], whole digits [D], a decimal marker (['.'] or [',']) and at most
    eight fraction digits [F], the result is the number in satoshis,
    [D * 10^8 + F * 10^(8 - |F|)], reduced to [int64] and negated under
    the sign, with no error; without marker and fraction it is
    [D * 10^8].  Either digit string may be empty. *)
Theorem Parse_decimal_value (neg : bool) (sep : ascii) (D F : string) :
  is_point sep -> all_digits D -> all_digits F -> len F <= 8 ->
  Parse (signStr neg ++ D ++ String sep F)
  = (signed neg
       (Int64.wrap (decValue D * 10 ^ 8 + decValue F * 10 ^ (8 - len F))),
     None)
  /\ Parse (signStr neg ++ D)
     = (signed neg (Int64.wrap (decValue D * 10 ^ 8)), None).
Proof.
  intros Hsep HD HF Hlen.
  change (10 ^ 8) with BTC. rewrite !Parse_signStr. split.
  - apply scan_decimal; assumption.
  - apply scan_integer; assumption.
Qed.

Lemma Parse_decimal_value_witness :
  Parse (signStr true ++ "20" ++ String "," "125")
  = (signed true
       (Int64.wrap (decValue "20" * 10 ^ 8
                    + decValue "125" * 10 ^ (8 - len "125"))),
     None)
  /\ Parse (signStr true ++ "20")
     = (signed true (Int64.wrap (decValue "20" * 10 ^ 8)), None).
Proof.
  apply (Parse_decimal_value true "," "20" "125").
  - right. reflexivity.
  - simpl. auto.
  - simpl. auto.
  - unfold len. simpl. lia.
Defined.

(** The fraction digits that use the multiplier up: with [mul = 10^j]
    and exactly [j + 1] digits, the multiplier ends at zero. *)
Lemma scan_frac_exact (input : string) (F : string) :
  all_digits F ->
  forall (rest : list Z) (pos : Z) (st : parseState) (j : Z),
    Int64.in_range (value st) -> decimals st = true ->
    mul st = 10 ^ j -> 0 <= j <= 18 -> len F = j + 1 ->
    scan input (rangeFrom pos 0 (bytes F ++ rest)) st
    = scan input (rangeFrom (pos + len F) 0 rest)
        (mkState (Int64.wrap (value st + decValue F)) true (negative st) 0).
Proof.
  induction F as [|c F IH]; intros Hall rest pos st j Hv Hdec Hmul Hj Hlen.
  - change (len EmptyString) with 0 in Hlen. lia.
  - destruct Hall as [Hc Hall].
    change (bytes (String c F) ++ rest)%list
      with (byte_of c :: (bytes F ++ rest))%list.
    rewrite (scan_digit input pos (byte_of c) _ st Hc).
    assert (Hadd : add st (byte_of c - 48)
                   = mkState
                       (Int64.add (value st)
                          (Int64.mul (byte_of c - 48) (10 ^ j)))
                       true (negative st) (Int64.quo (10 ^ j) 10)).
    { unfold add. rewrite Hdec, Hmul. reflexivity. }
    rewrite Hadd.
    assert (Hlc : len (String c F) = len F + 1).
    { unfold len. cbn [String.length]. lia. }
    assert (Hl : 0 <= len F) by (unfold len; lia).
    rewrite Hlc in *.
    destruct (Z.eq_dec (len F) 0) as [Hz|Hnz].
    + assert (F = EmptyString) as ->.
      { destruct F; [reflexivity|]. unfold len in Hz. simpl in Hz. lia. }
      assert (j = 0) as -> by lia.
      change (bytes EmptyString ++ rest)%list with rest.
      change (len EmptyString) with 0.
      replace (pos + (0 + 1)) with (pos + 1) by lia.
      change (Int64.quo (10 ^ 0) 10) with 0.
      f_equal. f_equal.
      apply eqm_wrap. unfold Int64.add, Int64.mul. rewrite !wrap_eqm.
      unfold decValue. cbn [decValueFrom]. change (10 ^ 0) with 1.
      replace ((byte_of c - 48) * 1) with (0 * 10 + (byte_of c - 48)) by lia.
      reflexivity.
    + assert (Hq : Int64.quo (10 ^ j) 10 = 10 ^ (j - 1)).
      { unfold Int64.quo.
        replace (10 ^ j) with (10 ^ (j - 1) * 10).
        - rewrite Z.quot_mul by lia.
          apply wrap_id, pow10_in_range. lia.
        - rewrite Z.mul_comm, <- (Z.pow_succ_r 10 (j - 1)) by lia.
          f_equal. lia. }
      rewrite (IH Hall rest (pos + 1)
                 (mkState
                    (Int64.add (value st)
                       (Int64.mul (byte_of c - 48) (10 ^ j)))
                    true (negative st) (Int64.quo (10 ^ j) 10))
                 (j - 1));
        try (cbn [value decimals mul]; first
               [ apply wrap_in_range | reflexivity | exact Hq | lia ]).
      cbn [value negative].
      replace (pos + 1 + len F) with (pos + (len F + 1)) by lia.
      f_equal. f_equal.
      apply eqm_wrap. unfold Int64.add, Int64.mul. rewrite !wrap_eqm.
      unfold decValue at 2. cbn [decValueFrom].
      rewrite decValueFrom_shift.
      replace (len F) with j by lia.
      replace (0 * 10 + (byte_of c - 48)) with (byte_of c - 48) by lia.
      rewrite Z.add_assoc. reflexivity.
Qed.

(** Once the multiplier is zero a digit changes nothing. *)
Lemma scan_frac_zero (input : string) (G : string) :
  all_digits G ->
  forall (rest : list Z) (pos : Z) (st : parseState),
    Int64.in_range (value st) -> decimals st = true -> mul st = 0 ->
    scan input (rangeFrom pos 0 (bytes G ++ rest)) st
    = scan input (rangeFrom (pos + len G) 0 rest) st.
Proof.
  induction G as [|c G IH]; intros Hall rest pos st Hv Hdec Hmul.
  - change (bytes EmptyString ++ rest)%list with rest.
    change (len EmptyString) with 0. rewrite Z.add_0_r. reflexivity.
  - destruct Hall as [Hc Hall].
    change (bytes (String c G) ++ rest)%list
      with (byte_of c :: (bytes G ++ rest))%list.
    rewrite (scan_digit input pos (byte_of c) _ st Hc).
    assert (Hadd : add st (byte_of c - 48) = st).
    { unfold add. rewrite Hdec, Hmul. cbn [negb].
      unfold Int64.add, Int64.mul.
      replace ((byte_of c - 48) * 0) with 0 by lia.
      change (Int64.wrap 0) with 0. rewrite Z.add_0_r, (wrap_id _ Hv).
      change (Int64.quo 0 10) with 0.
      destruct st; simpl in *; subst; reflexivity. }
    rewrite Hadd, (IH Hall rest (pos + 1) st Hv Hdec Hmul).
    assert (Hlc : len (String c G) = len G + 1).
    { unfold len. cbn [String.length]. lia. }
    rewrite Hlc. f_equal. f_equal. lia.
Qed.

(** X3. Fraction digits after the eighth are dropped, not rounded: with
    eight fraction digits [F] in place, any further digits [G] leave the
    result of [Parse] as it is without them. *)
Theorem Parse_truncates_fraction (neg : bool) (sep : ascii)
  (D F G : string) :
  is_point sep -> all_digits D -> all_digits F -> all_digits G ->
  len F = 8 ->
  Parse (signStr neg ++ D ++ String sep (F ++ G))
  = Parse (signStr neg ++ D ++ String sep F).
Proof.
  intros Hsep HD HF HG Hlen.
  rewrite !Parse_signStr.
  rewrite (scan_decimal _ D F sep neg _ Hsep HD HF) by lia.
  rewrite bytes_app.
  rewrite (scan_int_digits _ D HD)
    by (try reflexivity; cbn [value];
        unfold Int64.in_range, Int64.min_int, Int64.max_int; lia).
  cbn [value negative mul].
  change (bytes (String sep (F ++ G))) with (byte_of sep :: bytes (F ++ G)).
  rewrite scan_sep by (try reflexivity; apply pointB_byte_of; exact Hsep).
  cbn [value negative mul].
  rewrite bytes_app.
  rewrite (scan_frac_exact _ F HF (bytes G) _ _ 7);
    try (cbn [value decimals mul]; first
           [ apply wrap_in_range | reflexivity | lia ]).
  cbn [value negative].
  rewrite <- (List.app_nil_r (bytes G)).
  rewrite (scan_frac_zero _ G HG [])
    by (try reflexivity; cbn [value]; apply wrap_in_range).
  cbn [rangeFrom scan negative value].
  rewrite Hlen. change (10 ^ (8 - 8)) with 1.
  assert (HV : Int64.wrap
                 (Int64.wrap (0 * 10 ^ len D + decValue D * BTC)
                  + decValue F)
               = Int64.wrap (decValue D * BTC + decValue F * 1)).
  { apply eqm_wrap. rewrite wrap_eqm.
    replace (0 * 10 ^ len D + decValue D * BTC) with (decValue D * BTC)
      by lia.
    rewrite Z.mul_1_r. reflexivity. }
  rewrite HV. unfold signed. destruct neg; reflexivity.
Qed.

Lemma Parse_truncates_fraction_witness :
  Parse (signStr false ++ "0" ++ String "." ("12345678" ++ "99"))
  = Parse (signStr false ++ "0" ++ String "." "12345678").
Proof.
  apply (Parse_truncates_fraction false "." "0" "12345678" "99").
  - left. reflexivity.
  - simpl. auto.
  - simpl. repeat split; reflexivity.
  - simpl. auto.
  - reflexivity.
Defined.

(** A successful scan that meets no sign at offset 0 gives the same
    result at other offsets and on behalf of another input. *)
Lemma scan_shifted (input input' : string) (bs : list Z) :
  Forall (fun b => 0 <= b < 256) bs ->
  forall (pos pos' : Z) (st : parseState),
    0 <= pos -> 0 < pos' ->
    (pos = 0 -> match bs with b :: _ => signB b = false | [] => True end) ->
    snd (scan input (rangeFrom pos 0 bs) st) = None ->
    scan input' (rangeFrom pos' 0 bs) st
    = scan input (rangeFrom pos 0 bs) st.
Proof.
  induction 1 as [|b t Hb Ht IH]; intros pos pos' st Hpos Hpos' Hhd.
  - reflexivity.
  - cbn [rangeFrom].
    destruct (decodeRune_head b t Hb Ht) as [[Hlt ->]|[Hge Hr]].
    + cbn [Nat.pred scan].
      destruct (Z.eqb_spec b 43) as [->|N43].
      { destruct (Z.eqb_spec pos 0) as [->|Hp].
        - specialize (Hhd eq_refl). discriminate Hhd.
        - simpl. discriminate. }
      destruct (Z.eqb_spec b 45) as [->|N45].
      { destruct (Z.eqb_spec pos 0) as [->|Hp].
        - specialize (Hhd eq_refl). discriminate Hhd.
        - simpl. discriminate. }
      destruct (is_digit b).
      { apply IH; lia. }
      destruct ((b =? 46) || (b =? 44)).
      { destruct (decimals st).
        - simpl. discriminate.
        - apply IH; lia. }
      simpl. discriminate.
    + destruct (decodeRune (b :: t)) as [r size]. simpl in Hr.
      cbn [scan].
      destruct (Z.eqb_spec r 43); [lia|].
      destruct (Z.eqb_spec r 45); [lia|].
      unfold is_digit. destruct (Z.leb_spec r 57); [lia|].
      rewrite andb_false_r.
      destruct (Z.eqb_spec r 46); [lia|].
      destruct (Z.eqb_spec r 44); [lia|].
      simpl. discriminate.
Qed.

Lemma no_leading_sign_bytes (X : string) :
  (forall c : ascii, String.get 0 X = Some c -> ~ is_sign c) ->
  match bytes X with b :: _ => signB b = false | [] => True end.
Proof.
  intros Hhd. destruct X as [|c X']; [exact I|].
  change (bytes (String c X')) with (byte_of c :: bytes X').
  destruct (signB (byte_of c)) eqn:Es; [|exact Es].
  apply signB_byte_of in Es. exfalso. exact (Hhd c eq_refl Es).
Qed.

(** X4. A ['+'] in front changes nothing: for every input [X] that
    [Parse] accepts and that does not begin with a sign,
    [Parse ("+" ++ X) = Parse X]. *)
Theorem Parse_plus_prefix (X : string) :
  snd (Parse X) = None ->
  (forall c : ascii, String.get 0 X = Some c -> ~ is_sign c) ->
  Parse ("+" ++ X) = Parse X.
Proof.
  intros Hok Hhd. unfold Parse, rangeString in *.
  change (bytes ("+" ++ X)) with (43 :: bytes X).
  rewrite rangeFrom_ascii by lia.
  cbn [scan Z.eqb Pos.eqb]. change (0 + 1) with 1.
  apply (scan_shifted X ("+" ++ X) (bytes X) (bytes_range X) 0 1 initState);
    try lia; try assumption.
  intros _. apply no_leading_sign_bytes. exact Hhd.
Qed.

Lemma Parse_plus_prefix_witness : Parse ("+" ++ "20.1") = Parse "20.1".
Proof.
  apply (Parse_plus_prefix "20.1").
  - reflexivity.
  - intros c H. injection H as <-. intros [H|H]; discriminate H.
Defined.

(** X5. Leading zeros are ignored: for every input [X] that [Parse]
    accepts and that does not begin with a sign, a ['0'] put in front of
    [X], after an optional ['-'], leaves the result as it is. *)
Theorem Parse_leading_zero (neg : bool) (X : string) :
  snd (Parse X) = None ->
  (forall c : ascii, String.get 0 X = Some c -> ~ is_sign c) ->
  Parse (signStr neg ++ "0" ++ X) = Parse (signStr neg ++ X).
Proof.
  intros Hok Hhd. rewrite !Parse_signStr.
  change (bytes ("0" ++ X)) with (48 :: bytes X).
  rewrite scan_digit by reflexivity.
  change (add (mkState 0 false neg 10000000) (48 - 48))
    with (mkState 0 false neg 10000000).
  pose proof (no_leading_sign_bytes X Hhd) as Hb.
  unfold Parse, rangeString in Hok.
  destruct neg.
  - change (mkState 0 false true 10000000) with (setNegative initState).
    rewrite (scan_negated X _ (bytes X) (bytes_range X) 0 (1 + 1) initState)
      by (try lia; try reflexivity; try assumption; intros _; exact Hb).
    rewrite (scan_negated X _ (bytes X) (bytes_range X) 0 1 initState)
      by (try lia; try reflexivity; try assumption; intros _; exact Hb).
    reflexivity.
  - change (mkState 0 false false 10000000) with initState.
    rewrite (scan_shifted X _ (bytes X) (bytes_range X) 0 (0 + 1) initState)
      by (try lia; try assumption; intros _; exact Hb).
    reflexivity.
Qed.

Lemma Parse_leading_zero_witness :
  Parse (signStr true ++ "0" ++ "20.1") = Parse (signStr true ++ "20.1").
Proof.
  apply (Parse_leading_zero true "20.1").
  - reflexivity.
  - intros c H. injection H as <-. intros [H|H]; discriminate H.
Defined.

(** ** split at any unit, Abs *)

Lemma rem_facts (a u : Z) :
  u <> 0 ->
  Z.abs (Z.rem a u) < Z.abs u
  /\ Z.abs (Z.rem a u) <= Z.abs a
  /\ (0 <= a -> 0 <= Z.rem a u)
  /\ (a <= 0 -> Z.rem a u <= 0).
Proof.
  intros Hu.
  pose proof (Z.rem_bound_abs a u Hu) as H1.
  pose proof (Z.rem_abs a u Hu) as H2.
  pose proof (Z.rem_le (Z.abs a) (Z.abs u) ltac:(lia) ltac:(lia)) as H3.
  pose proof (Z.rem_sign_mul a u Hu) as H4.
  repeat split; try lia; intros Ha; nia.
Qed.

(** Away from its two guards, for any unit: the remainder never wraps,
    the quotient does only for [min_int / -1]. *)
Lemma split_nonzero_unit (a u : Amount) :
  Int64.in_range a -> Int64.in_range u -> a <> 0 -> u <> 0 ->
  split a u = (Int64.wrap (Z.quot a u), Z.abs (Z.rem a u)).
Proof.
  intros Ha Hu Hnz Hunz. unfold split.
  destruct (Z.eqb_spec a 0) as [|_]; [contradiction|].
  destruct (Z.eqb_spec u 0) as [|_]; [contradiction|].
  destruct (rem_facts a u Hunz) as (H1 & H2 & H3 & H4).
  pose proof (Z.quot_rem' a u) as Hqr.
  unfold Int64.in_range, Int64.min_int, Int64.max_int in Ha, Hu.
  assert (Hq : Z.quot (a - Z.rem a u) u = Z.quot a u).
  { replace (a - Z.rem a u) with (Z.quot a u * u) by lia.
    apply Z.quot_mul. exact Hunz. }
  unfold Int64.rem, Int64.sub, Int64.quo.
  rewrite (wrap_id (Z.rem a u))
    by (unfold Int64.in_range, Int64.min_int, Int64.max_int; lia).
  rewrite (wrap_id (a - Z.rem a u))
    by (unfold Int64.in_range, Int64.min_int, Int64.max_int; lia).
  rewrite Hq. f_equal.
  unfold Abs. destruct (Z.ltb_spec (Z.rem a u) 0).
  - unfold Int64.neg.
    rewrite wrap_id
      by (unfold Int64.in_range, Int64.min_int, Int64.max_int; lia).
    lia.
  - lia.
Qed.

Lemma quot_in_range (a u : Z) :
  Int64.in_range a -> u <> 0 ->
  ~ (a = Int64.min_int /\ u = -1) ->
  Int64.in_range (Z.quot a u).
Proof.
  intros Ha Hu Hex.
  unfold Int64.in_range, Int64.min_int, Int64.max_int in *.
  pose proof (Z.quot_rem' a u) as Hqr.
  destruct (rem_facts a u Hu) as (H1 & H2 & H3 & H4).
  assert (Habs : Z.abs (Z.quot a u) * Z.abs u <= Z.abs a).
  { rewrite <- Z.abs_mul.
    replace (Z.quot a u * u) with (a - Z.rem a u) by lia. lia. }
  assert (Hle : Z.abs (Z.quot a u) <= Z.abs a) by nia.
  split; [lia|].
  destruct (Z.le_gt_cases (Z.quot a u) (2 ^ 63 - 1)) as [|Hbig]; [assumption|].
  exfalso. apply Hex.
  assert (Hq : Z.quot a u = 2 ^ 63) by lia.
  assert (Ha' : a = - 2 ^ 63) by lia.
  split; [exact Ha'|].
  rewrite Hq in Habs. rewrite Ha' in Habs.
  assert (Hu1 : Z.abs u = 1) by lia.
  assert (Hr0 : Z.rem a u = 0) by lia.
  destruct (Z.abs_spec u) as [[? ?]|[? ?]]; [|lia].
  assert (u = 1) by lia. subst u. rewrite Z.quot_1_r in Hq. lia.
Qed.

(** X7. [split] is exact at every non-zero unit, not only at powers of
    ten: for [int64] values [a] and [u <> 0], other than the one
    overflowing pair [a = min_int, u = -1], the parts satisfy
    [left * u + sign(a) * right = a] with [0 <= right < |u|]; [left] is
    the truncated quotient and [right] the magnitude of the remainder. *)
Theorem split_exact (a u : Amount) :
  Int64.in_range a -> Int64.in_range u -> u <> 0 ->
  ~ (a = Int64.min_int /\ u = -1) ->
  fst (split a u) * u + Z.sgn a * snd (split a u) = a
  /\ 0 <= snd (split a u) < Z.abs u
  /\ fst (split a u) = Z.quot a u
  /\ snd (split a u) = Z.abs (Z.rem a u).
Proof.
  intros Ha Hu Hunz Hex.
  destruct (Z.eq_dec a 0) as [->|Hnz].
  - unfold split. change (0 =? 0) with true. cbn [fst snd].
    rewrite Z.quot_0_l, Z.rem_0_l by lia. repeat split; lia.
  - rewrite (split_nonzero_unit a u Ha Hu Hnz Hunz). cbn [fst snd].
    rewrite (wrap_id _ (quot_in_range a u Ha Hunz Hex)).
    pose proof (Z.quot_rem' a u) as Hqr.
    destruct (rem_facts a u Hunz) as (H1 & H2 & H3 & H4).
    repeat split; lia.
Qed.

Lemma split_exact_witness :
  fst (split (-112345678) (-300)) * (-300)
  + Z.sgn (-112345678) * snd (split (-112345678) (-300)) = -112345678
  /\ 0 <= snd (split (-112345678) (-300)) < Z.abs (-300)
  /\ fst (split (-112345678) (-300)) = Z.quot (-112345678) (-300)
  /\ snd (split (-112345678) (-300)) = Z.abs (Z.rem (-112345678) (-300)).
Proof.
  apply (split_exact (-112345678) (-300)).
  - unfold Int64.in_range, Int64.min_int, Int64.max_int. lia.
  - unfold Int64.in_range, Int64.min_int, Int64.max_int. lia.
  - lia.
  - intros [H _]. discriminate H.
Defined.

(** X8. The sentinel cannot be mistaken: for [int64] values, the second
    part of [split] is negative exactly when the amount is not zero and
    the unit is zero, and it is [-1] then. *)
Theorem split_sentinel (a u : Amount) :
  Int64.in_range a -> Int64.in_range u ->
  (snd (split a u) < 0 <-> a <> 0 /\ u = 0)
  /\ (snd (split a u) < 0 -> split a u = (0, -1)).
Proof.
  intros Ha Hu.
  destruct (Z.eq_dec a 0) as [->|Hnz].
  - unfold split. change (0 =? 0) with true. cbn [snd].
    split; [split|]; lia.
  - destruct (Z.eq_dec u 0) as [->|Hunz].
    + unfold split. destruct (Z.eqb_spec a 0); [contradiction|].
      change (0 =? 0) with true. cbn [snd].
      split; [split|]; try lia. reflexivity.
    + rewrite (split_nonzero_unit a u Ha Hu Hnz Hunz). cbn [snd].
      split; [split|]; lia.
Qed.

Lemma split_sentinel_witness :
  (snd (split 5 0) < 0 <-> 5 <> 0 /\ 0 = 0)
  /\ (snd (split 5 0) < 0 -> split 5 0 = (0, -1)).
Proof.
  apply (split_sentinel 5 0);
    unfold Int64.in_range, Int64.min_int, Int64.max_int; lia.
Defined.

Lemma Abs_int64 (a : Amount) :
  Int64.in_range a ->
  Int64.in_range (Abs a)
  /\ (a <> Int64.min_int -> Abs a = Z.abs a)
  /\ (a = Int64.min_int -> Abs a = Int64.min_int).
Proof.
  intros Ha. unfold Abs, Int64.neg.
  unfold Int64.in_range, Int64.min_int, Int64.max_int in *.
  destruct (Z.ltb_spec a 0) as [Hn|Hp].
  - split; [apply wrap_in_range|]. split.
    + intros Hne. rewrite wrap_id
        by (unfold Int64.in_range, Int64.min_int, Int64.max_int; lia).
      lia.
    + intros ->. reflexivity.
  - split; [lia|]. split; [lia|]. intros ->. lia.
Qed.

(** X9. [Abs] is the absolute value on every [int64] but the least one,
    which it returns unchanged (its negation wraps); the result is
    always an [int64]. *)
Theorem Abs_spec (a : Amount) :
  Int64.in_range a ->
  Int64.in_range (Abs a)
  /\ (a <> Int64.min_int -> Abs a = Z.abs a)
  /\ (a = Int64.min_int -> Abs a = Int64.min_int).
Proof. exact (Abs_int64 a). Qed.

Lemma Abs_spec_witness :
  Int64.in_range (Abs (-7))
  /\ (-7 <> Int64.min_int -> Abs (-7) = Z.abs (-7))
  /\ (-7 = Int64.min_int -> Abs (-7) = Int64.min_int).
Proof.
  apply (Abs_spec (-7)).
  unfold Int64.in_range, Int64.min_int, Int64.max_int. lia.
Defined.

(** ** Format, MarshalText and String *)

Lemma decValueFrom_nonneg (s : string) :
  all_digits s -> forall acc : Z, 0 <= acc -> 0 <= decValueFrom acc s.
Proof.
  induction s as [|c s IH]; intros Hall acc Hacc; [exact Hacc|].
  destruct Hall as [Hc Hall]. cbn [decValueFrom].
  apply IH; [exact Hall|].
  pose proof (is_digit_bounds _ Hc). lia.
Qed.

Lemma byte_of_zero (c : ascii) : byte_of c = 48 -> c = "0"%char.
Proof.
  intros H. rewrite <- (ascii_N_embedding c).
  replace (N_of_ascii c) with 48%N by (unfold byte_of in H; lia).
  reflexivity.
Qed.

(** A digit string that denotes zero ends in ['0']. *)
Lemma decValue_zero_last (p : string) (c : ascii) :
  all_digits (p ++ String c EmptyString) ->
  decValue (p ++ String c EmptyString) = 0 -> c = "0"%char.
Proof.
  intros Hall Hv. apply all_digits_app in Hall. destruct Hall as [Hp [Hc _]].
  unfold decValue in Hv. rewrite decValueFrom_app in Hv. cbn in Hv.
  pose proof (decValueFrom_nonneg p Hp 0 ltac:(lia)).
  pose proof (is_digit_bounds _ Hc).
  apply byte_of_zero. lia.
Qed.

(** The right string is ["0"] exactly when the remainder is zero. *)
Lemma rightStr_zero (rs padded : string) (m : nat) (r : Z) :
  padded = rs ++ zeros m -> all_digits padded -> decValue padded = r ->
  1 <= len rs ->
  len rs = 1 \/ last_char rs <> Some "0"%char ->
  (r = 0 <-> rs = "0").
Proof.
  intros Hpad Hall Hval Hlen Hlast.
  assert (Hr : r = decValue rs * 10 ^ Z.of_nat m).
  { rewrite <- Hval, Hpad. unfold decValue.
    rewrite decValueFrom_app, decValueFrom_zeros. reflexivity. }
  assert (Hrs : all_digits rs).
  { rewrite Hpad in Hall. apply all_digits_app in Hall. tauto. }
  split.
  - intros Hz.
    assert (Hd : decValue rs = 0).
    { pose proof (Z.pow_pos_nonneg 10 (Z.of_nat m) ltac:(lia) ltac:(lia)).
      nia. }
    destruct (string_snoc rs) as (p & c & ->).
    { intros ->. unfold len in Hlen. simpl in Hlen. lia. }
    pose proof (decValue_zero_last p c Hrs Hd) as ->.
    destruct Hlast as [H1|Hn].
    + rewrite len_app in H1. unfold len in H1. simpl in H1.
      destruct p; [reflexivity|]. simpl in H1. lia.
    + rewrite last_char_snoc in Hn. contradiction.
  - intros ->. rewrite Hr. reflexivity.
Qed.

Lemma Format_whole_helper (a : Amount) (k : Z) :
  Int64.in_range a -> 0 <= k <= 18 -> Z.rem a (10 ^ k) = 0 ->
  Format a (10 ^ k) = sprintf_d (Z.quot a (10 ^ k)).
Proof.
  intros Ha Hk Hrem.
  destruct (Z.eq_dec k 15) as [->|Hne].
  - unfold Format, SplitString.
    rewrite (split_pow10 a 15 Ha ltac:(lia)), Hrem, log10_pow10_15.
    change (Z.abs 0) with 0.
    replace (stripLoop (Nat.pred (String.length (sprintf_width 14 0)))
               (sprintf_width 14 0)) with "0" by (vm_compute; reflexivity).
    reflexivity.
  - destruct (SplitString_pow10 a k Ha Hk Hne)
      as (rs & m & HS & Hpad & Hall & Hval & _ & Hlen & Hlast).
    unfold Format. rewrite HS.
    assert (Hz : rs = "0").
    { apply (rightStr_zero rs _ m _ Hpad Hall Hval Hlen Hlast).
      rewrite Hrem. reflexivity. }
    rewrite Hz. reflexivity.
Qed.

(** X10. A whole number of units prints without a decimal point: when
    [10^k] divides [a], [Format] at the unit [10^k] is the decimal
    rendering of the quotient. *)
Theorem Format_whole (a : Amount) (k : Z) :
  Int64.in_range a -> 0 <= k <= 18 -> Z.rem a (10 ^ k) = 0 ->
  Format a (10 ^ k) = sprintf_d (Z.quot a (10 ^ k)).
Proof. apply Format_whole_helper. Qed.

Lemma Format_whole_witness :
  Format 150000000 (10 ^ 5) = sprintf_d (Z.quot 150000000 (10 ^ 5)).
Proof.
  apply (Format_whole 150000000 5).
  - unfold Int64.in_range, Int64.min_int, Int64.max_int. lia.
  - lia.
  - reflexivity.
Defined.

Lemma Format_fraction_helper (a : Amount) (k : Z) :
  Int64.in_range a -> 0 <= k <= 18 -> k <> 15 -> Z.rem a (10 ^ k) <> 0 ->
  exists rs : string,
    Format a (10 ^ k) = sprintf_d (Z.quot a (10 ^ k)) ++ "." ++ rs
    /\ all_digits rs
    /\ 1 <= len rs <= k
    /\ last_char rs <> Some "0"%char
    /\ decValue rs * 10 ^ (k - len rs) = Z.abs (Z.rem a (10 ^ k)).
Proof.
  intros Ha Hk Hne15 Hrem.
  destruct (SplitString_pow10 a k Ha Hk Hne15)
    as (rs & m & HS & Hpad & Hall & Hval & Hplen & Hlen & Hlast).
  pose proof (rightStr_zero rs _ m _ Hpad Hall Hval Hlen Hlast) as Hz.
  assert (Hne : rs <> "0") by (intros E; apply Hz in E; lia).
  assert (Hk1 : 1 <= k).
  { destruct (Z.eq_dec k 0) as [->|]; [|lia].
    change (10 ^ 0) with 1 in Hrem. rewrite Z.rem_1_r in Hrem. lia. }
  assert (Hm : len rs + Z.of_nat m = k).
  { rewrite Hpad, len_app in Hplen. unfold len at 2 in Hplen.
    rewrite length_zeros in Hplen. lia. }
  exists rs. split; [|split; [|split; [|split]]].
  - unfold Format. rewrite HS.
    destruct (String.eqb_spec rs "0"); [contradiction|reflexivity].
  - rewrite Hpad in Hall. apply all_digits_app in Hall. tauto.
  - lia.
  - destruct Hlast as [H1|Hn]; [|exact Hn].
    destruct (string_snoc rs) as (p & c & ->).
    { intros ->. unfold len in Hlen. simpl in Hlen. lia. }
    rewrite len_app in H1. unfold len in H1. simpl in H1.
    destruct p; [|simpl in H1; lia].
    simpl. unfold last_char. simpl. intros E. injection E as ->.
    apply Hne. reflexivity.
  - rewrite <- Hval, Hpad. unfold decValue.
    rewrite decValueFrom_app, decValueFrom_zeros.
    replace (k - len rs) with (Z.of_nat m) by lia. reflexivity.
Qed.

(** X11. Otherwise [Format] prints quotient, point and fraction: when
    [10^k], with k other than 15, does not divide [a], the output is the
    decimal rendering of the quotient, a ['.'], and between one and [k]
    digits that do not end in ['0'] and, read as the leading digits of a
    [k]-digit number, give the magnitude of the remainder. *)
Theorem Format_fraction (a : Amount) (k : Z) :
  Int64.in_range a -> 0 <= k <= 18 -> k <> 15 -> Z.rem a (10 ^ k) <> 0 ->
  exists rs : string,
    Format a (10 ^ k) = sprintf_d (Z.quot a (10 ^ k)) ++ "." ++ rs
    /\ all_digits rs
    /\ 1 <= len rs <= k
    /\ last_char rs <> Some "0"%char
    /\ decValue rs * 10 ^ (k - len rs) = Z.abs (Z.rem a (10 ^ k)).
Proof. apply Format_fraction_helper. Qed.

Lemma Format_fraction_witness :
  exists rs : string,
    Format (-150000) (10 ^ 5)
    = sprintf_d (Z.quot (-150000) (10 ^ 5)) ++ "." ++ rs
    /\ all_digits rs
    /\ 1 <= len rs <= 5
    /\ last_char rs <> Some "0"%char
    /\ decValue rs * 10 ^ (5 - len rs) = Z.abs (Z.rem (-150000) (10 ^ 5)).
Proof.
  apply (Format_fraction (-150000) 5).
  - unfold Int64.in_range, Int64.min_int, Int64.max_int. lia.
  - lia.
  - lia.
  - discriminate.
Defined.

Lemma sprintf_d_signStr (l : Z) :
  sprintf_d l = signStr (l <? 0) ++ utoa (Z.abs l).
Proof.
  destruct (Z.ltb_spec l 0) as [Hn|Hp].
  - rewrite (sprintf_d_neg l Hn), Z.abs_neq by lia. reflexivity.
  - rewrite (sprintf_d_nonneg l Hp), Z.abs_eq by lia. reflexivity.
Qed.

(** X12. The text round trip: for an [int64] amount that is not strictly
    between -1 BTC and 0, [UnmarshalText] applied to the text
    [MarshalText] produces succeeds and assigns the amount, whatever the
    receiver held before. *)
Theorem MarshalText_roundtrip (a b : Amount) :
  Int64.in_range a -> 0 <= a \/ a <= - BTC ->
  snd (MarshalText a) = None
  /\ UnmarshalText b (fst (MarshalText a)) = (a, None).
Proof.
  intros Ha Hsign.
  assert (HB : BTC = 10 ^ 8) by reflexivity.
  destruct (SplitString_pow10 a 8 Ha ltac:(lia) ltac:(lia))
    as (rs & m & HS & Hpad & Hall & Hval & Hlen & _ & _).
  rewrite <- HB in HS, Hval, Hpad, Hall, Hlen.
  change (Z.max 1 8) with 8 in Hlen.
  unfold MarshalText. rewrite HS. cbn [fst snd].
  split; [reflexivity|].
  assert (Hrs : all_digits rs).
  { rewrite Hpad in Hall. apply all_digits_app in Hall. tauto. }
  assert (Hm : len rs + Z.of_nat m = 8).
  { rewrite <- Hlen, Hpad, len_app. unfold len at 3.
    rewrite length_zeros. reflexivity. }
  assert (Hr : decValue rs * 10 ^ (8 - len rs) = Z.abs (Z.rem a BTC)).
  { rewrite <- Hval, Hpad. unfold decValue.
    rewrite decValueFrom_app, decValueFrom_zeros.
    replace (8 - len rs) with (Z.of_nat m) by lia. reflexivity. }
  assert (HD : all_digits (utoa (Z.abs (Z.quot a BTC)))
               /\ decValue (utoa (Z.abs (Z.quot a BTC)))
                  = Z.abs (Z.quot a BTC)).
  { destruct (utoa_spec (Z.abs (Z.quot a BTC)) ltac:(lia)) as (H1 & H2 & _).
    auto. }
  destruct HD as [HD HDv].
  assert (HP : Parse (sprintf_d (Z.quot a BTC) ++ "." ++ rs) = (a, None)).
  { rewrite sprintf_d_signStr, app_assoc, Parse_signStr.
    rewrite (scan_decimal _ _ rs "." _ _ (or_introl eq_refl) HD Hrs)
      by lia.
    rewrite HDv, Hr.
    apply (f_equal (fun v : Amount => (v, @None error))).
    pose proof (Z.quot_rem' a BTC) as Hqr.
    assert (HBpos : 0 < BTC) by reflexivity.
    transitivity (Int64.wrap a); [|apply wrap_id; exact Ha].
    destruct Hsign as [Hp|Hn].
    - pose proof (Z.quot_pos a BTC Hp HBpos) as Hq.
      destruct (rem_pos_facts a BTC Hp HBpos) as [Hrm _].
      destruct (Z.ltb_spec (Z.quot a BTC) 0); [lia|].
      unfold signed. f_equal. lia.
    - assert (Hq : Z.quot a BTC < 0).
      { destruct (rem_neg_facts a BTC ltac:(lia) HBpos) as [_ Hrm]. nia. }
      destruct (rem_neg_facts a BTC ltac:(lia) HBpos) as [Hrm _].
      destruct (Z.ltb_spec (Z.quot a BTC) 0); [|lia].
      unfold signed, Int64.neg. apply eqm_wrap. rewrite wrap_eqm.
      replace (- (Z.abs (Z.quot a BTC) * BTC + Z.abs (Z.rem a BTC)))
        with a by lia.
      reflexivity. }
  unfold UnmarshalText. rewrite HP. reflexivity.
Qed.

Lemma MarshalText_roundtrip_witness :
  snd (MarshalText 200000000) = None
  /\ UnmarshalText 7 (fst (MarshalText 200000000)) = (200000000, None).
Proof.
  apply (MarshalText_roundtrip 200000000 7).
  - unfold Int64.in_range, Int64.min_int, Int64.max_int. lia.
  - left. lia.
Defined.

Lemma get0_app (s t : string) :
  s <> EmptyString -> String.get 0 (s ++ t) = String.get 0 s.
Proof. destruct s; [contradiction|reflexivity]. Qed.

Lemma utoa_nonempty_digit (n : Z) :
  0 <= n ->
  exists (c : ascii) (t : string),
    utoa n = String c t /\ is_digit (byte_of c) = true.
Proof.
  intros Hn. destruct (utoa_spec n Hn) as (Hall & _ & Hlen & _).
  destruct (utoa n) as [|c t].
  - unfold len in Hlen. simpl in Hlen. lia.
  - exists c, t. split; [reflexivity|]. exact (proj1 Hall).
Qed.

(** The first byte of ["%d"] is ['-'] exactly for a negative number. *)
Lemma sprintf_d_head (l : Z) :
  sprintf_d l <> EmptyString
  /\ (String.get 0 (sprintf_d l) = Some "-"%char <-> l < 0).
Proof.
  destruct (Z.lt_ge_cases l 0) as [Hn|Hp].
  - rewrite (sprintf_d_neg l Hn). split; [discriminate|].
    simpl. split; [intros _; exact Hn|reflexivity].
  - rewrite (sprintf_d_nonneg l Hp).
    destruct (utoa_nonempty_digit l Hp) as (c & t & -> & Hc).
    split; [discriminate|]. simpl. split; [|lia].
    intros E. injection E as ->. discriminate Hc.
Qed.

Lemma Format_head (a : Amount) (k : Z) (suffix : string) :
  Int64.in_range a -> 0 <= k <= 18 -> k <> 15 ->
  (String.get 0 (Format a (10 ^ k) ++ suffix) = Some "-"%char
   <-> Z.quot a (10 ^ k) < 0).
Proof.
  intros Ha Hk Hne15.
  destruct (SplitString_pow10 a k Ha Hk Hne15) as (rs & m & HS & _).
  destruct (sprintf_d_head (Z.quot a (10 ^ k))) as [Hne Hhd].
  unfold Format. rewrite HS.
  destruct (String.eqb rs "0").
  - rewrite get0_app by exact Hne. exact Hhd.
  - rewrite !app_assoc, get0_app by exact Hne. exact Hhd.
Qed.

(** X13. [String] never loses the sign: for every [int64] amount the
    output begins with ['-'] exactly when the amount is negative. *)
Theorem String_keeps_sign (a : Amount) :
  Int64.in_range a ->
  (String.get 0 (String_ a) = Some "-"%char <-> a < 0).
Proof.
  intros Ha. unfold String_.
  assert (HB : BTC = 10 ^ 8) by reflexivity.
  assert (HM : MilliBTC = 10 ^ 5) by reflexivity.
  assert (HS : Satoshi = 10 ^ 0) by reflexivity.
  destruct (Abs_int64 a Ha) as (_ & Habs & Hmin).
  assert (Hq : forall u : Z, 0 < u ->
             (Abs a > u \/ u = 1) -> (Z.quot a u < 0 <-> a < 0)).
  { intros u Hu Hcase.
    pose proof (Z.quot_rem' a u) as Hqr. split.
    - intros Hneg. destruct (Z.lt_ge_cases a 0) as [|Hp]; [assumption|].
      pose proof (Z.quot_pos a u Hp Hu). lia.
    - intros Hn.
      destruct (rem_neg_facts a u Hn Hu) as [Hr1 Hr2].
      destruct Hcase as [Hgt| ->].
      + destruct (Z.eq_dec a Int64.min_int) as [E|E].
        * rewrite (Hmin E) in Hgt. unfold Int64.min_int in Hgt. lia.
        * rewrite (Habs E) in Hgt. nia.
      + rewrite Z.quot_1_r. exact Hn. }
  destruct (Z.gtb_spec (Abs a) BTC) as [H1|H1].
  - cbn [orb]. rewrite HB at 1.
    rewrite (Format_head a 8 _ Ha ltac:(lia) ltac:(lia)). rewrite <- HB.
    apply Hq; [reflexivity|left; lia].
  - destruct (Z.eqb_spec a 0) as [->|Hnz].
    + cbn [orb].
      replace (String.get 0 (Format 0 BTC ++ " BTC")) with (Some "0"%char)
        by (vm_compute; reflexivity).
      split; [discriminate|lia].
    + cbn [orb]. destruct (Z.gtb_spec (Abs a) MilliBTC) as [H2|H2].
      * rewrite HM at 1.
        rewrite (Format_head a 5 _ Ha ltac:(lia) ltac:(lia)). rewrite <- HM.
        apply Hq; [reflexivity|left; lia].
      * rewrite HS.
        rewrite (Format_head a 0 _ Ha ltac:(lia) ltac:(lia)).
        apply Hq; [reflexivity|right; reflexivity].
Qed.

Lemma String_keeps_sign_witness :
  String.get 0 (String_ (-50000000)) = Some "-"%char <-> -50000000 < 0.
Proof.
  apply (String_keeps_sign (-50000000)).
  unfold Int64.in_range, Int64.min_int, Int64.max_int. lia.
Defined.

(** X14. [Parse] does not read what [String] writes: the unit suffix
    starts with a space, so for every amount [Parse (String a)] returns
    an error, and zero with it. *)
Theorem Parse_rejects_String (a : Amount) :
  exists e : error, Parse (String_ a) = (0, Some e).
Proof.
  assert (Hsp : forall (p t : string),
             offending (p ++ String " "%char t)).
  { intros p t. exists (String.length p), " "%char.
    split; [apply get_snoc|]. right. right.
    apply allowedB_byte_of. reflexivity. }
  assert (Hoff : offending (String_ a)).
  { unfold String_.
    destruct ((Abs a >? BTC) || (a =? 0)); [apply Hsp|].
    destruct (Abs a >? MilliBTC); apply Hsp. }
  apply Parse_error_offending in Hoff.
  pose proof (scan_error_value _ _ _ Hoff) as Hv.
  fold (Parse (String_ a)) in Hv.
  destruct (Parse (String_ a)) as [v [e|]]; simpl in *.
  - exists e. subst v. reflexivity.
  - contradiction.
Qed.

(** ** UnmarshalJSON *)

(** X15. In [UnmarshalJSON] text decoding of the payload comes first and
    its error is the only one reported: if [Parse] accepts the payload
    its value is assigned, whatever the float decoder would do; and an
    error returned by [UnmarshalJSON] is always the [Parse] error of the
    payload, never one from the float path. *)
Theorem UnmarshalJSON_text_first
  (float64 : Type) (jsonUnmarshalFloat : string -> option float64)
  (sprintf_08f : float64 -> string) (a : Amount) (input : string) :
  (snd (Parse (jsonPayload input)) = None ->
   UnmarshalJSON float64 jsonUnmarshalFloat sprintf_08f a input
   = (fst (Parse (jsonPayload input)), None))
  /\ (forall e : error,
        snd (UnmarshalJSON float64 jsonUnmarshalFloat sprintf_08f a input)
        = Some e ->
        snd (Parse (jsonPayload input)) = Some e).
Proof.
  split.
  - intros Hok. unfold UnmarshalJSON.
    rewrite (UnmarshalText_ok a _ Hok). reflexivity.
  - intros e He.
    destruct (UnmarshalJSON_error float64 jsonUnmarshalFloat sprintf_08f
                a input) as [_ H].
    + rewrite He. discriminate.
    + rewrite <- H. exact He.
Qed.

Lemma UnmarshalJSON_text_first_witness :
  UnmarshalJSON unit (fun _ => Some tt) (fun _ => "9") 7 "1.5"
  = (fst (Parse (jsonPayload "1.5")), None)
  /\ snd (Parse (jsonPayload "1x")) = Some (UnknownCharacter 120 "1x").
Proof.
  destruct (UnmarshalJSON_text_first unit (fun _ => Some tt) (fun _ => "9")
              7 "1.5") as [H1 _].
  destruct (UnmarshalJSON_text_first unit (fun _ => None) (fun _ => "9")
              7 "1x") as [_ H2].
  split.
  - apply H1. reflexivity.
  - apply H2. reflexivity.
Defined.

(** ** The revision with digit positions *)

Lemma posLoop_pow (n : nat) :
  forall v : Amount,
    AmountGo.posLoop n v = Int64.wrap (v * 10 ^ Z.of_nat n)
    \/ (n = 0%nat /\ AmountGo.posLoop n v = v).
Proof.
  induction n as [|n IH]; intros v.
  - right. split; reflexivity.
  - left. cbn [AmountGo.posLoop].
    rewrite Nat2Z.inj_succ, Z.pow_succ_r by lia.
    destruct (IH (Int64.mul v 10)) as [->|[-> ->]].
    + apply eqm_wrap. unfold Int64.mul. rewrite wrap_eqm.
      replace (v * (10 * 10 ^ Z.of_nat n)) with (v * 10 * 10 ^ Z.of_nat n)
        by ring.
      reflexivity.
    + unfold Int64.mul. f_equal.
Qed.

Lemma posValue_wrap (pos : Z) :
  AmountGo.posValue pos = Int64.wrap (10 ^ Z.of_nat (Z.to_nat (8 - pos))).
Proof.
  unfold AmountGo.posValue. change (Int64.mul 1 Satoshi) with 1.
  destruct (posLoop_pow (Z.to_nat (8 - pos)) 1) as [->|[-> ->]].
  - f_equal. lia.
  - reflexivity.
Qed.

Lemma posValue_pow10 (pos : Z) :
  -10 <= pos <= 8 -> AmountGo.posValue pos = 10 ^ (8 - pos).
Proof.
  intros Hp. rewrite posValue_wrap, Z2Nat.id by lia.
  apply wrap_id, pow10_in_range. lia.
Qed.

(** X16. The loop of the earlier [split] computes the power of ten of
    the position: [posValue = 10^(8-pos)] for [-10 <= pos <= 8] (up to
    [10^18], the powers an [int64] holds), and [1] for every [pos >= 8]. *)
Theorem posValue_spec (pos : Z) :
  (-10 <= pos <= 8 -> AmountGo.posValue pos = 10 ^ (8 - pos))
  /\ (8 <= pos -> AmountGo.posValue pos = 1).
Proof.
  split; [apply posValue_pow10|].
  intros Hp. unfold AmountGo.posValue.
  replace (Z.to_nat (8 - pos)) with 0%nat by lia. reflexivity.
Qed.

Lemma posValue_spec_witness :
  AmountGo.posValue 3 = 10 ^ (8 - 3) /\ AmountGo.posValue 11 = 1.
Proof.
  split.
  - apply (proj1 (posValue_spec 3)). lia.
  - apply (proj2 (posValue_spec 11)). lia.
Defined.

Lemma split_pos_unit (a : Amount) (pos : Z) :
  Int64.in_range a -> -10 <= pos <= 8 ->
  AmountGo.split a pos = Some (split a (10 ^ (8 - pos))).
Proof.
  intros Ha Hp. unfold AmountGo.split.
  rewrite (posValue_pow10 pos Hp).
  pose proof (pow10_bounds (8 - pos) ltac:(lia)) as Hu.
  destruct (Z.eqb_spec (10 ^ (8 - pos)) 0) as [E|_]; [lia|].
  f_equal. unfold split.
  destruct (Z.eqb_spec a 0) as [->|Hnz].
  - unfold Int64.rem, Int64.sub, Int64.quo.
    rewrite Z.rem_0_l by lia. change (Int64.wrap 0) with 0.
    change (0 - 0) with 0. rewrite Z.quot_0_l by lia. reflexivity.
  - destruct (Z.eqb_spec (10 ^ (8 - pos)) 0) as [E|_]; [lia|]. reflexivity.
Qed.

(** X17. The two revisions of [split] agree: for an [int64] amount and a
    position [-10 <= pos <= 8], the earlier [split(pos)] does not panic
    and returns what [split] returns at the unit [10^(8-pos)]. *)
Theorem split_revisions_agree (a : Amount) (pos : Z) :
  Int64.in_range a -> -10 <= pos <= 8 ->
  AmountGo.split a pos = Some (split a (10 ^ (8 - pos))).
Proof. apply split_pos_unit. Qed.

Lemma split_revisions_agree_witness :
  AmountGo.split (-112345678) 4 = Some (split (-112345678) (10 ^ (8 - 4))).
Proof.
  apply (split_revisions_agree (-112345678) 4).
  - unfold Int64.in_range, Int64.min_int, Int64.max_int. lia.
  - lia.
Defined.

Lemma SplitString_pos_unit (a : Amount) (pos : Z) :
  Int64.in_range a -> -10 <= pos <= 8 -> pos <> -7 ->
  AmountGo.SplitString a pos = Some (SplitString a (10 ^ (8 - pos))).
Proof.
  intros Ha Hp Hne. unfold AmountGo.SplitString, SplitString.
  rewrite (split_pos_unit a pos Ha Hp).
  rewrite (log10_pow10 (8 - pos)) by lia.
  unfold Int64.sub.
  rewrite (wrap_id (8 - pos))
    by (unfold Int64.in_range, Int64.min_int, Int64.max_int; lia).
  destruct (split a (10 ^ (8 - pos))) as [l r]. reflexivity.
Qed.

(** X18. The two revisions of [SplitString] agree: for an [int64]
    amount and [-10 <= pos <= 8], [pos = -7] apart, the earlier
    [SplitString(pos)] returns the strings of [SplitString] at the unit
    [10^(8-pos)]; the pad widths [8-pos] and [log10(unit)] are the same
    number.  (At [pos = -7] the unit is [10^15], where the later
    revision pads to 14 digits, the earlier one to 15.) *)
Theorem SplitString_revisions_agree (a : Amount) (pos : Z) :
  Int64.in_range a -> -10 <= pos <= 8 -> pos <> -7 ->
  AmountGo.SplitString a pos = Some (SplitString a (10 ^ (8 - pos))).
Proof. apply SplitString_pos_unit. Qed.

Lemma SplitString_revisions_agree_witness :
  AmountGo.SplitString 1000120000 0
  = Some (SplitString 1000120000 (10 ^ (8 - 0))).
Proof.
  apply (SplitString_revisions_agree 1000120000 0).
  - unfold Int64.in_range, Int64.min_int, Int64.max_int. lia.
  - lia.
  - lia.
Defined.

Lemma withUnit_Format (a u : Amount) (unit : string) :
  (let (left, right) := SplitString a u in
   AmountGo.withUnit left right unit)
  = Format a u ++ " " ++ unit.
Proof.
  unfold Format, AmountGo.withUnit.
  destruct (SplitString a u) as [l r].
  destruct (String.eqb r "0"); [reflexivity|].
  rewrite !app_assoc. reflexivity.
Qed.

Lemma Format_Satoshi (a : Amount) :
  Int64.in_range a -> Format a Satoshi = sprintf_d a.
Proof.
  intros Ha. change Satoshi with (10 ^ 0).
  rewrite (Format_whole_helper a 0 Ha ltac:(lia)).
  - change (10 ^ 0) with 1. rewrite Z.quot_1_r. reflexivity.
  - change (10 ^ 0) with 1. apply Z.rem_1_r.
Qed.

(** X19. [String] is the same function in both revisions: for every
    [int64] amount the earlier [String] does not panic and returns the
    string the later one, built on [Format], returns. *)
Theorem String_revisions_agree (a : Amount) :
  Int64.in_range a -> AmountGo.String_ a = Some (String_ a).
Proof.
  intros Ha. unfold AmountGo.String_, String_.
  destruct ((Abs a >? BTC) || (a =? 0)).
  - rewrite (SplitString_pos_unit a 0 Ha ltac:(lia) ltac:(lia)).
    change (10 ^ (8 - 0)) with BTC.
    pose proof (withUnit_Format a BTC "BTC") as H.
    destruct (SplitString a BTC) as [l r]. rewrite H. reflexivity.
  - destruct (Abs a >? MilliBTC).
    + rewrite (SplitString_pos_unit a 3 Ha ltac:(lia) ltac:(lia)).
      change (10 ^ (8 - 3)) with MilliBTC.
      pose proof (withUnit_Format a MilliBTC "mBTC") as H.
      destruct (SplitString a MilliBTC) as [l r]. rewrite H. reflexivity.
    + rewrite (Format_Satoshi a Ha). reflexivity.
Qed.

Lemma String_revisions_agree_witness :
  AmountGo.String_ (-200000) = Some (String_ (-200000)).
Proof.
  apply (String_revisions_agree (-200000)).
  unfold Int64.in_range, Int64.min_int, Int64.max_int. lia.
Defined.

(** X20. The unit methods of the earlier revision are [Format] with a
    suffix: for every [int64] amount, [BTC()] is [Format(BTC)] followed by
    [" BTC"], [MilliBTC()] is [Format(MilliBTC)] followed by [" mBTC"],
    [Satoshi()] is [Format(Satoshi)] followed by [" sats"], and
    [MarshalText] is the same in both revisions. *)
Theorem unit_methods_are_Format (a : Amount) :
  Int64.in_range a ->
  AmountGo.BTC_ a = Some (Format a BTC ++ " BTC")
  /\ AmountGo.MilliBTC_ a = Some (Format a MilliBTC ++ " mBTC")
  /\ AmountGo.Satoshi_ a = Format a Satoshi ++ " sats"
  /\ AmountGo.MarshalText a = Some (MarshalText a).
Proof.
  intros Ha. split; [|split; [|split]].
  - unfold AmountGo.BTC_.
    rewrite (SplitString_pos_unit a 0 Ha ltac:(lia) ltac:(lia)).
    change (10 ^ (8 - 0)) with BTC.
    pose proof (withUnit_Format a BTC "BTC") as H.
    destruct (SplitString a BTC) as [l r]. rewrite H. reflexivity.
  - unfold AmountGo.MilliBTC_.
    rewrite (SplitString_pos_unit a 3 Ha ltac:(lia) ltac:(lia)).
    change (10 ^ (8 - 3)) with MilliBTC.
    pose proof (withUnit_Format a MilliBTC "mBTC") as H.
    destruct (SplitString a MilliBTC) as [l r]. rewrite H. reflexivity.
  - unfold AmountGo.Satoshi_. rewrite (Format_Satoshi a Ha). reflexivity.
  - unfold AmountGo.MarshalText, MarshalText.
    rewrite (SplitString_pos_unit a 0 Ha ltac:(lia) ltac:(lia)).
    change (10 ^ (8 - 0)) with BTC.
    destruct (SplitString a BTC) as [l r]. reflexivity.
Qed.

Lemma unit_methods_are_Format_witness :
  AmountGo.BTC_ 201000000 = Some (Format 201000000 BTC ++ " BTC")
  /\ AmountGo.MilliBTC_ 201000000
     = Some (Format 201000000 MilliBTC ++ " mBTC")
  /\ AmountGo.Satoshi_ 201000000 = Format 201000000 Satoshi ++ " sats"
  /\ AmountGo.MarshalText 201000000 = Some (MarshalText 201000000).
Proof.
  apply (unit_methods_are_Format 201000000).
  unfold Int64.in_range, Int64.min_int, Int64.max_int. lia.
Defined.

Lemma wrap_zero_iff (x : Z) :
  Int64.wrap x = 0 <-> x mod Int64.modulus = 0.
Proof.
  split.
  - intros H. pose proof (wrap_eqm x) as [E]. rewrite H in E.
    rewrite <- E. reflexivity.
  - intros H. change 0 with (Int64.wrap 0). apply eqm_wrap.
    constructor. rewrite H. reflexivity.
Qed.

Lemma pow10_mod_small (n : nat) :
  (n < 64)%nat -> 10 ^ Z.of_nat n mod Int64.modulus <> 0.
Proof.
  intros Hn.
  assert (Hall : forallb
                   (fun k => negb (10 ^ Z.of_nat k mod Int64.modulus =? 0))
                   (seq 0 64) = true) by (vm_compute; reflexivity).
  rewrite forallb_forall in Hall.
  specialize (Hall n ltac:(apply in_seq; lia)).
  apply negb_true_iff in Hall. apply Z.eqb_neq in Hall. exact Hall.
Qed.

Lemma pow10_mod_large (n : Z) :
  64 <= n -> 10 ^ n mod Int64.modulus = 0.
Proof.
  intros Hn. replace n with (64 + (n - 64)) by lia.
  rewrite Z.pow_add_r by lia.
  rewrite Z.mul_mod by (unfold Int64.modulus; lia).
  replace (10 ^ 64 mod Int64.modulus) with 0 by (vm_compute; reflexivity).
  reflexivity.
Qed.

(** X21. The earlier [split] panics exactly for [pos <= -56]: from 64
    turns of the loop on, [posValue] has wrapped to zero and the division
    by it fails; for every other position it returns a pair. *)
Theorem split_pos_panics (a : Amount) (pos : Z) :
  AmountGo.split a pos = None <-> pos <= -56.
Proof.
  unfold AmountGo.split. rewrite posValue_wrap.
  set (n := Z.to_nat (8 - pos)).
  destruct (Z.eqb_spec (Int64.wrap (10 ^ Z.of_nat n)) 0) as [E|E].
  - split; [|reflexivity]. intros _.
    apply wrap_zero_iff in E.
    destruct (Nat.lt_ge_cases n 64) as [Hlt|Hge].
    + exfalso. exact (pow10_mod_small n Hlt E).
    + unfold n in Hge. lia.
  - split; [discriminate|]. intros Hp. exfalso. apply E.
    apply wrap_zero_iff, pow10_mod_large. unfold n. lia.
Qed.

(** ** The test tables *)

(** X22. Every row of the four tables of [Amount_test.go] ([TestParse],
    [TestString], [TestSplit], [TestSplitString]) passes. *)
Theorem test_tables_pass :
  forallb TestParse_row TestParse_cases = true
  /\ forallb TestString_row TestString_cases = true
  /\ forallb TestSplit_row TestSplit_cases = true
  /\ forallb TestSplitString_row TestSplitString_cases = true.
Proof. repeat split; vm_compute; reflexivity. Qed.

(** ** String: the unit chosen and what is printed *)

Lemma Format_rendered (a : Amount) (k : Z) :
  Int64.in_range a -> 0 <= k <= 18 -> k <> 15 ->
  rendered a k (Format a (10 ^ k)).
Proof.
  intros Ha Hk Hne. unfold rendered.
  destruct (Z.eq_dec (Z.rem a (10 ^ k)) 0) as [Hz|Hnz].
  - left. split; [rewrite Hz; reflexivity|].
    apply Format_whole_helper; assumption.
  - right. split; [lia|].
    apply Format_fraction_helper; assumption.
Qed.

(** C5, as stated, does not hold at the least [int64]: its magnitude
    exceeds [BTC], yet [Abs] wraps to the amount itself, no comparison
    holds and [String] prints satoshis. *)
Lemma String_unit_choice_counterexample :
  Z.abs Int64.min_int > BTC
  /\ Abs Int64.min_int = Int64.min_int
  /\ String_ Int64.min_int = "-9223372036854775808 sats"
  /\ Format Int64.min_int BTC ++ " BTC" = "-92233720368.54775808 BTC"
  /\ String_ Int64.min_int <> Format Int64.min_int BTC ++ " BTC".
Proof.
  split; [reflexivity|]. split; [reflexivity|].
  split; [vm_compute; reflexivity|]. split; [vm_compute; reflexivity|].
  intros H. vm_compute in H. discriminate H.
Qed.

(** C5, amended. For every [int64] amount [a] other than the least one,
    [String] picks the unit by strict comparisons on [|a|]: BTC when
    [|a| > BTC] or [a = 0], otherwise mBTC when [|a| > MilliBTC],
    otherwise sats; it prints [a] in that unit ([Format] at the unit:
    the quotient, and the fraction when there is one) followed by the
    suffix.  Zero prints as ["0 BTC"]; an amount equal to a threshold
    falls to the next smaller unit ([BTC] prints in mBTC, [MilliBTC] in
    sats); the least [int64] prints in sats. *)
Theorem String_unit_choice :
  (forall a : Amount,
      Int64.in_range a -> a <> Int64.min_int ->
      exists body : string,
        String_ a = body ++ snd (displayUnit a)
        /\ body = Format a (10 ^ fst (displayUnit a))
        /\ rendered a (fst (displayUnit a)) body)
  /\ String_ 0 = "0 BTC"
  /\ String_ BTC = "1000 mBTC"
  /\ String_ (- BTC) = "-1000 mBTC"
  /\ String_ MilliBTC = "100000 sats"
  /\ String_ 201000000 = "2.01 BTC"
  /\ String_ (-150000) = "-1.5 mBTC"
  /\ String_ Int64.min_int = "-9223372036854775808 sats".
Proof.
  split.
  - intros a Ha Hmin.
    destruct (Abs_int64 a Ha) as (_ & Habs & _).
    specialize (Habs Hmin).
    unfold String_, displayUnit. rewrite Habs.
    destruct ((Z.abs a >? BTC) || (a =? 0)).
    + exists (Format a (10 ^ 8)). cbn [fst snd].
      split; [reflexivity|]. split; [reflexivity|].
      apply Format_rendered; [assumption|lia|lia].
    + destruct (Z.abs a >? MilliBTC).
      * exists (Format a (10 ^ 5)). cbn [fst snd].
        split; [reflexivity|]. split; [reflexivity|].
        apply Format_rendered; [assumption|lia|lia].
      * exists (Format a (10 ^ 0)). cbn [fst snd].
        split; [reflexivity|]. split; [reflexivity|].
        apply Format_rendered; [assumption|lia|lia].
  - repeat split; vm_compute; reflexivity.
Qed.

Lemma String_unit_choice_witness :
  exists body : string,
    String_ (-150000) = body ++ snd (displayUnit (-150000))
    /\ body = Format (-150000) (10 ^ fst (displayUnit (-150000)))
    /\ rendered (-150000) (fst (displayUnit (-150000))) body.
Proof.
  apply (proj1 String_unit_choice (-150000)).
  - unfold Int64.in_range, Int64.min_int, Int64.max_int. lia.
  - discriminate.
Defined.

(** ** The unit [10^15] *)

(** At [10^15] the float logarithm is [14.999999999999998] and the pad
    width 14: the right string is a digit short, where the earlier
    revision, with [pos = -7], pads to 15. *)
Example SplitString_at_1e15 :
  log10 (10 ^ 15) = 14
  /\ SplitString 5 (10 ^ 15) = ("0", "00000000000005")
  /\ Format 5 (10 ^ 15) = "0.00000000000005"
  /\ AmountGo.SplitString 5 (-7) = Some ("0", "000000000000005").
Proof. repeat split; vm_compute; reflexivity. Qed.
